(** * al_document.py: overflow fields, documents and bundles

    A shallow embedding of [docassemble/ALDocument/al_document.py].  Python
    objects are records of their attributes, an attribute that may be unset
    is an [option], a call that may raise returns a [result], and a method
    that mutates its object returns the object's new state next to its
    result. *)

From Stdlib Require Import ZArith.
From stdpp Require Import gmap strings list.

Local Open Scope string_scope.
Local Open Scope Z_scope.

(** ** Exceptions *)

(** The exceptions that the module's code can run into.  [DAAttributeError]
    and [DAIndexError] are the errors with which docassemble's [DAObject]
    and [DADict] report an attribute or an item that is not defined; the
    first is an [AttributeError], the second an [IndexError]. *)
Inductive pyerr : Type :=
  | NameError (name : string)
  | AttributeError (type_name attr : string)
  | TypeError (msg : string)
  | KeyError (key : string)
  | DAAttributeError (attr : string)
  | DAIndexError (key : string)
  | ServiceError (msg : string).


Inductive result (A : Type) : Type :=
  | Ok (a : A)
  | Err (e : pyerr).
Arguments Ok {A} a.
Arguments Err {A} e.

#[global] Instance result_ret : MRet result := @Ok.
#[global] Instance result_bind : MBind result := λ A B f m,
  match m with
  | Ok a => f a
  | Err e => Err e
  end.

Definition is_Ok {A} (r : result A) : bool :=
  match r with Ok _ => true | Err _ => false end.

(** [[f(x) for x in l]]: the calls run from left to right and the first
    exception ends the comprehension. *)
Fixpoint comprehension {A B} (f : A → result B) (l : list A) : result (list B) :=
  match l with
  | [] => Ok []
  | x :: l' => y ← f x; ys ← comprehension f l'; Ok (y :: ys)
  end.

(** [[x for x in l if p(x)]]. *)
Fixpoint comprehension_if {A} (p : A → result bool) (l : list A) : result (list A) :=
  match l with
  | [] => Ok []
  | x :: l' =>
      b ← p x; xs ← comprehension_if p l';
      Ok (if b : bool then x :: xs else xs)
  end.

(** ** Values of interview variables *)

(** The variable behind a field is, in the words of [overflow_value]'s
    docstring, a "list-like object or string". *)
#[warnings="-register-all"]
Inductive pyval : Type :=
  | VStr (s : string)
  | VList (l : list pyval).

Definition len (v : pyval) : Z :=
  match v with
  | VStr s => Z.of_nat (String.length s)
  | VList l => Z.of_nat (length l)
  end.

Definition isinstance_str (v : pyval) : bool :=
  match v with VStr _ => true | VList _ => false end.

Fixpoint str_take (n : nat) (s : string) : string :=
  match n, s with
  | S n', String c s' => String c (str_take n' s')
  | _, _ => EmptyString
  end.

Fixpoint str_drop (n : nat) (s : string) : string :=
  match n, s with
  | S n', String _ s' => str_drop n' s'
  | _, _ => s
  end.

(** A slice bound [i] on a sequence of length [n]: a negative bound counts
    from the end, and the outcome is clamped to [0..n]. *)
Definition adjust_index (i : Z) (n : nat) : nat :=
  Z.to_nat (if i <? 0 then Z.max 0 (i + Z.of_nat n) else Z.min i (Z.of_nat n)).

(** [v[i:]] *)
Definition slice_from (i : Z) (v : pyval) : pyval :=
  match v with
  | VStr s => VStr (str_drop (adjust_index i (String.length s)) s)
  | VList l => VList (drop (adjust_index i (length l)) l)
  end.

(** [v[:i]] *)
Definition slice_to (i : Z) (v : pyval) : pyval :=
  match v with
  | VStr s => VStr (str_take (adjust_index i (String.length s)) s)
  | VList l => VList (take (adjust_index i (length l)) l)
  end.

(** [v + w] on sequences. *)
Definition add (v w : pyval) : result pyval :=
  match v, w with
  | VStr s, VStr s' => Ok (VStr (s +:+ s'))
  | VList l, VList l' => Ok (VList (l ++ l'))
  | VStr _, VList _ => Err (TypeError "can only concatenate str (not list) to str")
  | VList _, VStr _ => Err (TypeError "can only concatenate list (not str) to list")
  end.

(** ** Objects and names *)

(** Reading an attribute of a [DAObject]: an attribute that was never set
    is reported as undefined. *)
Definition getattr {A} (attr : string) (slot : option A) : result A :=
  match slot with
  | Some a => Ok a
  | None => Err (DAAttributeError attr)
  end.

(** The names bound at module level: the imports of the first line and the
    five classes. *)
Definition module_names : list string :=
  [ "DADict"; "DAList"; "DAObject"; "DAFile"; "DAFileCollection";
    "DAFileList"; "defined"; "value"; "pdf_concatenate"; "DAOrderedDict";
    "ALAddendumField"; "ALAddendumFieldDict"; "ALDocument";
    "ALDocumentBundle"; "ALDocumentBundleDict" ].

Definition module_globals {A} (module_level : string → A) : list (string * A) :=
  map (λ name, (name, module_level name)) module_names.

(** An insertion-ordered dictionary ([OrderedDict], and [dict] itself): a
    new key goes to the end, a known key keeps its place. *)
Fixpoint od_get {V} (k : string) (od : list (string * V)) : option V :=
  match od with
  | [] => None
  | (k', v) :: od' => if decide (k' = k) then Some v else od_get k od'
  end.

Fixpoint od_set {V} (k : string) (v : V) (od : list (string * V))
    : list (string * V) :=
  match od with
  | [] => [(k, v)]
  | (k', v') :: od' =>
      if decide (k' = k) then (k, v) :: od' else (k', v') :: od_set k v od'
  end.

Definition od_values {V} (od : list (string * V)) : list V := od.*2.

(** In-place change of the object stored under [k]. *)
Definition od_alter {V} (f : V → V) (k : string) (od : list (string * V))
    : list (string * V) :=
  map (λ p, if decide (p.1 = k) then (p.1, f p.2) else p) od.

(** Evaluating a name in a function body: the function's parameters and
    local variables come first, then the names bound at module level; a name
    bound in neither raises [NameError] (no name looked up this way in the
    module is a builtin). *)
Definition load_name {A} (locals globals : list (string * A)) (name : string)
    : result A :=
  match od_get name locals with
  | Some a => Ok a
  | None =>
      match od_get name globals with
      | Some a => Ok a
      | None => Err (NameError name)
      end
  end.

(** Methods that change their object: the object's state is threaded
    through, and it keeps the changes made before an exception. *)
Definition M (S A : Type) : Type := S → result A * S.

Definition M_ret {S A} (a : A) : M S A := λ s, (Ok a, s).

Definition M_bind {S A B} (m : M S A) (f : A → M S B) : M S B :=
  λ s, match m s with
       | (Ok a, s') => f a s'
       | (Err e, s') => (Err e, s')
       end.

Definition M_raise {S A} (e : pyerr) : M S A := λ s, (Err e, s).

Definition M_lift {S A} (r : result A) : M S A := λ s, (r, s).

Definition M_get {S} : M S S := λ s, (Ok s, s).

Definition M_modify {S} (f : S → S) : M S () := λ s, (Ok (), f s).

#[global] Instance M_mret {S} : MRet (M S) := λ A, M_ret.
#[global] Instance M_mbind {S} : MBind (M S) := λ A B f m, M_bind m f.

(** ** The interview's variables and files *)

(** [defined] and [value] of [docassemble.base.util] read the variables of
    the running interview, here a finite map from variable names. *)
Section interview.
Context (store : gmap string pyval).

Definition defined (name : string) : bool :=
  bool_decide (is_Some (store !! name)).

Definition value (name : string) : result pyval :=
  match store !! name with
  | Some v => Ok v
  | None => Err (NameError name)
  end.
End interview.







(** Attachments and the PDFs made of them are handles of docassemble that
    the module passes on without looking inside. *)
Inductive artifact : Type :=
  | Artifact (name : string).

(** ** ALAddendumField *)

Module ALAddendumField.

Record t : Type := new {
  field_name : option string;
  overflow_trigger : option Z
}.

Section methods.
Context (store : gmap string pyval).

Definition value_if_defined (self : t) : result pyval :=
  name ← getattr "field_name" (field_name self);
  if defined store name then
    name' ← getattr "field_name" (field_name self);
    value store name'
  else Ok (VStr "").

Definition overflow_value (self : t) : result pyval :=
  v ← value_if_defined self;
  trigger ← getattr "overflow_trigger" (overflow_trigger self);
  if len v >? trigger then
    v' ← value_if_defined self;
    trigger' ← getattr "overflow_trigger" (overflow_trigger self);
    Ok (slice_from trigger' v')
  else Ok (VStr "").

Definition safe_value (self : t) (overflow_message : string) : result pyval :=
  v ← value_if_defined self;
  trigger ← getattr "overflow_trigger" (overflow_trigger self);
  if len v >? trigger then
    v1 ← value_if_defined self;
    if isinstance_str v1 then
      v2 ← value_if_defined self;
      trigger' ← getattr "overflow_trigger" (overflow_trigger self);
      add (slice_to trigger' v2) (VStr overflow_message)
    else
      v2 ← value_if_defined self;
      trigger' ← getattr "overflow_trigger" (overflow_trigger self);
      Ok (slice_to trigger' v2)
  else value_if_defined self.

(** "Overflowing" in the words of the data model: the variable is set
    and [overflow_value] is not empty. *)
Definition overflowing (self : t) : Prop :=
  ∃ name v, field_name self = Some name ∧ is_Some (store !! name) ∧
            overflow_value self = Ok v ∧ 0 < len v.

End methods.

(** A field with its two required attributes. *)
Definition complete (self : t) : Prop :=
  is_Some (field_name self) ∧ is_Some (overflow_trigger self).

(** [value()] *)
Definition value_method (store : gmap string pyval) (self : t) : result pyval :=
  value_if_defined store self.

(** What the names of [columns] can be bound to. *)
Inductive obj : Type :=
  | OSelf (self : t)
  | OStr (s : string)
  | OModuleLevel (name : string).

(** [hasattr(o, name)]: the attributes of a field that are set. *)
Definition hasattr (o name : obj) : result bool :=
  match o, name with
  | OSelf f, OStr "field_name" => Ok (bool_decide (is_Some (field_name f)))
  | OSelf f, OStr "overflow_trigger" => Ok (bool_decide (is_Some (overflow_trigger f)))
  | _, OStr _ => Ok false
  | _, _ => Err (TypeError "hasattr(): attribute name must be string")
  end.

(** [columns()]: the argument of [hasattr] is the name [headers], not the
    string ['headers']; the class has no attribute [headers] yet. *)
Definition columns (self : t) : result (list string) :=
  let locals := [("self", OSelf self)] in
  o ← load_name locals (module_globals OModuleLevel) "self";
  name ← load_name locals (module_globals OModuleLevel) "headers";
  b ← hasattr o name;
  if b : bool then getattr "headers" None else Ok [].

End ALAddendumField.

(** ** ALAddendumFieldDict *)

Module ALAddendumFieldDict.

(** One record of the list given to [from_list]: a dictionary with the
    keys ['field_name'] and ['overflow_trigger']. *)
Record entry : Type := Entry {
  entry_field_name : string;
  entry_overflow_trigger : Z
}.

Record t : Type := new {
  object_type : option string;
  auto_gather : option bool;
  style : option string;
  data : option (list entry);
  elements : list (string * ALAddendumField.t)
}.

Definition set_object_type (x : option string) (self : t) : t :=
  new x (auto_gather self) (style self) (data self) (elements self).
Definition set_auto_gather (x : option bool) (self : t) : t :=
  new (object_type self) x (style self) (data self) (elements self).
Definition set_style (x : option string) (self : t) : t :=
  new (object_type self) (auto_gather self) x (data self) (elements self).
Definition set_data (x : option (list entry)) (self : t) : t :=
  new (object_type self) (auto_gather self) (style self) x (elements self).
Definition set_elements (x : list (string * ALAddendumField.t)) (self : t) : t :=
  new (object_type self) (auto_gather self) (style self) (data self) x.

(** What a variable of a method holds: [None], or the field object stored
    under a key of the dictionary (the object itself, not a copy of it). *)
Inductive ref : Type :=
  | RNone
  | RField (key : string).

(** The object behind a reference. *)
Definition deref (target : ref) (self : t) : option ALAddendumField.t :=
  match target with
  | RNone => None
  | RField key => od_get key (elements self)
  end.

(** [target.field_name = v] and [target.overflow_trigger = v]. *)
Definition setattr_field_name (target : ref) (v : string) : M t () :=
  match target with
  | RNone => M_raise (AttributeError "NoneType" "field_name")
  | RField key =>
      M_modify (λ self, set_elements
        (od_alter (λ f, ALAddendumField.new (Some v) (ALAddendumField.overflow_trigger f))
           key (elements self)) self)
  end.

Definition setattr_overflow_trigger (target : ref) (v : Z) : M t () :=
  match target with
  | RNone => M_raise (AttributeError "NoneType" "overflow_trigger")
  | RField key =>
      M_modify (λ self, set_elements
        (od_alter (λ f, ALAddendumField.new (ALAddendumField.field_name f) (Some v))
           key (elements self)) self)
  end.

(** [DADict.initializeObject] of docassemble, which the class inherits
    and overrides: it makes an object of the class it is given, with none
    of the class's own attributes set, stores it under the key and returns
    it. *)
Definition super_initializeObject (the_key : string) : M t ref :=
  _ ← M_modify (λ self, set_elements
        (od_set the_key (ALAddendumField.new None None) (elements self)) self);
  mret (RField the_key).

(** The override of lines 94-101.  It ends without a [return], so that the
    caller receives [None]. *)
Definition initializeObject (the_key : string) : M t ref :=
  _ ← super_initializeObject the_key;
  _ ← setattr_field_name (RField the_key) the_key;
  mret RNone.

(** [self[index]], inherited from [DADict]: a dictionary whose
    [object_type] is set creates the entry of a key it does not have,
    through [initializeObject] (the entry "created implicitly" of the
    override's docstring); without an [object_type] the item is reported
    as undefined. *)
Definition getitem (index : string) : M t ref :=
  self ← M_get;
  match od_get index (elements self) with
  | Some _ => mret (RField index)
  | None =>
      match object_type self with
      | None => M_raise (DAIndexError index)
      | Some _ => _ ← initializeObject index; mret (RField index)
      end
  end.

Fixpoint from_list (data : list entry) : M t () :=
  match data with
  | [] => mret ()
  | entry :: data' =>
      new_field ← initializeObject (entry_field_name entry);
      _ ← setattr_field_name new_field (entry_field_name entry);
      _ ← setattr_overflow_trigger new_field (entry_overflow_trigger entry);
      from_list data'
  end.

(** What the names of [init] can be bound to: the instance, the tuple and
    the dictionary of arguments, a list of records, a class or function of
    the module. *)
Inductive obj : Type :=
  | OSelf
  | OTuple
  | OKwargs
  | ORecords (l : list entry)
  | OModuleLevel (name : string).

(** [self.from_list(data)] for what [data] evaluates to. *)
Definition call_from_list (data : obj) : M t () :=
  match data with
  | ORecords l => from_list l
  | _ => M_raise (TypeError "object is not iterable")
  end.

(** [init(self, *pargs, **kwargs)], called with the keyword arguments
    [style] and [data] or without them.  The inherited [init] starts from
    an empty dictionary and sets the keyword arguments as attributes. *)
Definition init (kw_style : option string) (kw_data : option (list entry)) : M t () :=
  let locals := [("self", OSelf); ("pargs", OTuple); ("kwargs", OKwargs)] in
  _ ← M_modify (λ _, new None (Some true) kw_style kw_data []);
  _ ← M_modify (set_object_type (Some "ALAddendumField"));
  _ ← M_modify (set_auto_gather (Some false));
  self ← M_get;
  _ ← (if style self is Some _ then mret ()
       else M_modify (set_style (Some "overflow_only")));
  self ← M_get;
  if data self is Some _ then
    data ← M_lift (load_name locals (module_globals OModuleLevel) "data");
    _ ← call_from_list data;
    M_modify (set_data None)
  else mret ().

Section methods.
Context (store : gmap string pyval).

(** The two tests of the comprehensions in [defined_fields]:
    [defined(field.field_name) and len(field.overflow_value())] and
    [defined(field.field_name)]. *)
Definition is_overflow_field (field : ALAddendumField.t) : result bool :=
  name ← getattr "field_name" (ALAddendumField.field_name field);
  if defined store name then
    v ← ALAddendumField.overflow_value store field;
    Ok (negb (len v =? 0))
  else Ok false.

Definition is_defined_field (field : ALAddendumField.t) : result bool :=
  name ← getattr "field_name" (ALAddendumField.field_name field);
  Ok (defined store name).

Definition defined_fields (self : t) (style : string)
    : result (list ALAddendumField.t) :=
  if decide (style = "overflow_only") then
    comprehension_if is_overflow_field (od_values (elements self))
  else
    comprehension_if is_defined_field (od_values (elements self)).

Definition overflow (self : t) : result (list ALAddendumField.t) :=
  defined_fields self "overflow_only".

End methods.

(** Every field is stored under its own [field_name]. *)
Definition stamped (self : t) : Prop :=
  ∀ k f, (k, f) ∈ elements self → ALAddendumField.field_name f = Some k.

End ALAddendumFieldDict.

(** ** ALDocument *)

Module ALDocument.

(** The attachments of the document are the items of the dictionary, at
    the keys ["final"] and ["preview"]; [addendum] is an attribute, set
    for a document that can have one. *)
Record t : Type := new {
  filename : string;
  enabled : bool;
  has_addendum : bool;
  addendum : option artifact;
  default_overflow_message : string;
  overflow_fields : ALAddendumFieldDict.t;
  elements : gmap string artifact
}.

Definition set_overflow_fields (x : ALAddendumFieldDict.t) (self : t) : t :=
  new (filename self) (enabled self) (has_addendum self) (addendum self)
    (default_overflow_message self) x (elements self).

(** A method of [overflow_fields] run on the document's own. *)
Definition on_overflow_fields {A} (m : M ALAddendumFieldDict.t A) : M t A :=
  λ self,
    let '(r, fields) := m (overflow_fields self) in
    (r, set_overflow_fields fields self).

(** [self[key]], inherited from [DADict]; the class sets no
    [object_type], so that an item it does not have is reported as
    undefined. *)
Definition getitem (self : t) (key : string) : result artifact :=
  match elements self !! key with
  | Some a => Ok a
  | None => Err (DAIndexError key)
  end.

Section methods.
Context (store : gmap string pyval).
Context (pdf_concatenate : list artifact → string → result artifact).

Definition overflow (self : t) : result (list ALAddendumField.t) :=
  ALAddendumFieldDict.overflow store (overflow_fields self).

Definition has_overflow (self : t) : result bool :=
  fields ← overflow self;
  Ok (bool_decide (0 < length fields)%nat).

Definition as_list (self : t) (key : string) : result (list artifact) :=
  cond ← (if has_addendum self then has_overflow self else Ok false);
  if cond : bool then
    main ← getitem self key;
    extra ← getattr "addendum" (addendum self);
    Ok [main; extra]
  else
    main ← getitem self key;
    Ok [main].

Definition as_pdf (self : t) (key : string) : result artifact :=
  l ← as_list self key;
  pdf_concatenate l (filename self).

(** [safe_value(field_name, overflow_message=None)]; the lookup in
    [overflow_fields] can add an entry to them, so the method runs on
    the document's state. *)
Definition safe_value (field_name : string) (overflow_message : option string)
    : M t pyval :=
  self ← M_get;
  let overflow_message :=
    match overflow_message with
    | None => default_overflow_message self
    | Some m => m
    end in
  target ← on_overflow_fields (ALAddendumFieldDict.getitem field_name);
  self ← M_get;
  match ALAddendumFieldDict.deref target (overflow_fields self) with
  | Some field =>
      M_lift (ALAddendumField.safe_value store field overflow_message)
  | None => M_raise (AttributeError "NoneType" "safe_value")
  end.

(** The document has at least one overflowing field. *)
Definition has_overflowing_field (self : t) : Prop :=
  ∃ field, field ∈ od_values (ALAddendumFieldDict.elements (overflow_fields self)) ∧
           ALAddendumField.overflowing store field.

End methods.

(** Every field of the document has its required attributes. *)
Definition fields_complete (self : t) : Prop :=
  Forall ALAddendumField.complete
    (od_values (ALAddendumFieldDict.elements (overflow_fields self))).

Definition set_enabled (x : bool) (self : t) : t :=
  new (filename self) x (has_addendum self) (addendum self)
    (default_overflow_message self) (overflow_fields self) (elements self).

End ALDocument.

(** ** ALDocumentBundle *)

Module ALDocumentBundle.

(** A bundle is a list whose items are documents or bundles. *)
Inductive t : Type :=
  | new (filename : string) (enabled : option bool) (elements : list item)
with item : Type :=
  | Document (d : ALDocument.t)
  | Bundle (b : t).

Definition filename (self : t) : string :=
  match self with new f _ _ => f end.
Definition enabled (self : t) : option bool :=
  match self with new _ e _ => e end.
Definition elements (self : t) : list item :=
  match self with new _ _ l => l end.

(** [document.as_list(key=key)] for a [document] that is a bundle.  The
    class defines [init], [as_pdf], [preview], [as_flat_list],
    [as_pdf_list] and [as_html]; neither it nor the [DAList] it derives
    from has a method [as_list], so that the name is looked for among the
    object's attributes and reported as undefined. *)
Definition bundle_as_list (document : t) (key : string) : result (list artifact) :=
  Err (DAAttributeError "as_list").

Section methods.
Context (store : gmap string pyval).
Context (pdf_concatenate : list artifact → string → result artifact).

(** The loop of [as_flat_list] from the item it has reached, with the
    list gathered so far. *)
Fixpoint as_flat_list_from (documents : list item) (key : string)
    (flat_list : list artifact) : result (list artifact) :=
  match documents with
  | [] => Ok flat_list
  | Bundle b :: rest =>
      l ← bundle_as_list b key;
      as_flat_list_from rest key (flat_list ++ l)
  | Document d :: rest =>
      if ALDocument.enabled d then
        l ← ALDocument.as_list store d key;
        as_flat_list_from rest key (flat_list ++ l)
      else as_flat_list_from rest key flat_list
  end.

Definition as_flat_list (self : t) (key : string) : result (list artifact) :=
  as_flat_list_from (elements self) key [].

Definition as_pdf (self : t) (key : string) : result artifact :=
  l ← as_flat_list self key;
  pdf_concatenate l (filename self).

Definition preview (self : t) : result artifact :=
  as_pdf self "preview".

(** [document.as_pdf(key=key)]: both classes have the method. *)
Definition item_as_pdf (document : item) (key : string) : result artifact :=
  match document with
  | Document d => ALDocument.as_pdf store pdf_concatenate d key
  | Bundle b => as_pdf b key
  end.

Definition as_pdf_list (self : t) (key : string) : result (list artifact) :=
  comprehension (λ document, item_as_pdf document key) (elements self).

(** The flattening in the words of the specification: a child that is
    a bundle gives its own flattened list, a child that is a document
    gives its [as_list] when it is enabled. *)
Fixpoint spec_flatten (self : t) (key : string) : result (list artifact) :=
  match self with
  | new _ _ children =>
      (fix walk (children : list item) : result (list artifact) :=
         match children with
         | [] => Ok []
         | child :: rest =>
             l ← spec_flatten_item child key;
             ls ← walk rest;
             Ok (l ++ ls)%list
         end) children
  end
with spec_flatten_item (child : item) (key : string) : result (list artifact) :=
  match child with
  | Document d =>
      if ALDocument.enabled d then ALDocument.as_list store d key else Ok []
  | Bundle b => spec_flatten b key
  end.

End methods.
End ALDocumentBundle.

(** ** ALDocumentBundleDict *)

Module ALDocumentBundleDict.

Record t : Type := new {
  object_type : option string;
  auto_gather : option bool;
  gathered : option bool;
  elements : gmap string ALDocumentBundle.t
}.

(** What the names of a method can be bound to. *)
Inductive obj : Type :=
  | OInstance (d : t)
  | OStr (s : string)
  | OTuple
  | OKwargs
  | OModuleLevel (name : string).

Definition globals : list (string * obj) := module_globals OModuleLevel.

(** [super(cls, self).init(...)]: [cls] has to be a class of the
    instance; the inherited [init] of [DADict] starts from an empty
    dictionary. *)
Definition super_init (cls : obj) (self : t) : result t :=
  match cls with
  | OModuleLevel "ALDocumentBundleDict" => Ok (new None (Some true) None ∅)
  | _ => Err (TypeError "super(type, obj): obj must be an instance or subtype of type")
  end.

Definition init (self : t) : result t :=
  let locals := [("self", OInstance self); ("pargs", OTuple); ("kwargs", OKwargs)] in
  cls ← load_name locals globals "ALBundleList";
  self ← super_init cls self;
  let self := new (object_type self) (Some false) (gathered self) (elements self) in
  let self := new (object_type self) (auto_gather self) (Some true) (elements self) in
  _ ← load_name locals globals "ALBundle";
  let self := new (Some "ALBundle") (auto_gather self) (gathered self) (elements self) in
  let self :=
    if gathered self is Some _ then self
    else new (object_type self) (auto_gather self) (Some true) (elements self) in
  let self :=
    if auto_gather self is Some _ then self
    else new (object_type self) (Some false) (gathered self) (elements self) in
  Ok self.

(** Making an instance: the constructor of [DAObject] runs [init] on the
    new object. *)
Definition construct : result t := init (new None None None ∅).

(** [self[bundle]] for a role that the dictionary has. *)
Definition getitem (self bundle : obj) : result ALDocumentBundle.t :=
  match self, bundle with
  | OInstance d, OStr role =>
      match elements d !! role with
      | Some b => Ok b
      | None => Err (DAIndexError role)
      end
  | _, _ => Err (TypeError "object is not subscriptable")
  end.

Section methods.
Context (store : gmap string pyval).
Context (pdf_concatenate : list artifact → string → result artifact).

(** [b.as_pdf(key=..., format=...)]: [as_pdf] of a bundle has the one
    parameter [key]. *)
Definition call_as_pdf (b : ALDocumentBundle.t) (kwargs : list (string * obj))
    : result artifact :=
  match filter (λ kw, kw.1 ≠ "key") kwargs with
  | (name, _) :: _ =>
      Err (TypeError ("as_pdf() got an unexpected keyword argument " +:+ name))
  | [] =>
      match od_get "key" kwargs with
      | Some (OStr key) => ALDocumentBundle.as_pdf store pdf_concatenate b key
      | _ => ALDocumentBundle.as_pdf store pdf_concatenate b "final"
      end
  end.

(** [def preview(format='PDF', bundle='user_bundle')]: the parameters
    are [format] and [bundle], there is no [self]. *)
Definition preview (format bundle : obj) : result artifact :=
  let locals := [("format", format); ("bundle", bundle)] in
  self ← load_name locals globals "self";
  bundle ← load_name locals globals "bundle";
  b ← getitem self bundle;
  format ← load_name locals globals "format";
  call_as_pdf b [("key", OStr "preview"); ("format", format)].

(** [def as_attachment(format='PDF', bundle='court_bundle')]. *)
Definition as_attachment (format bundle : obj) : result (list artifact) :=
  let locals := [("format", format); ("bundle", bundle)] in
  self ← load_name locals globals "self";
  bundle ← load_name locals globals "bundle";
  b ← getitem self bundle;
  ALDocumentBundle.as_pdf_list store pdf_concatenate b "final".

(** [d.preview(bundle=r)] and [d.as_attachment(bundle=r)]: a call
    through the instance passes the instance as the first positional
    argument, which the first parameter receives. *)
Definition call_preview (d : t) (r : string) : result artifact :=
  preview (OInstance d) (OStr r).

Definition call_as_attachment (d : t) (r : string) : result (list artifact) :=
  as_attachment (OInstance d) (OStr r).

End methods.
End ALDocumentBundleDict.

(** ** A small interview *)

(** The variables of a running interview, a concatenation service that
    refuses an empty list, and a few objects over them: the values at which
    the statements below are tried. *)
Module Demo.

Definition store : gmap string pyval :=
  {[ "name" := VStr "Alexandria";
     "nickname" := VStr "Bob";
     "children" := VList [VStr "Ada"; VStr "Ben"; VStr "Cy"] ]}.

Definition pdf_concatenate (files : list artifact) (filename : string)
    : result artifact :=
  match files with
  | [] => Err (ServiceError "nothing to concatenate")
  | _ => Ok (Artifact filename)
  end.

Definition name_field : ALAddendumField.t :=
  ALAddendumField.new (Some "name") (Some 5).
Definition nickname_field : ALAddendumField.t :=
  ALAddendumField.new (Some "nickname") (Some 5).
Definition children_field : ALAddendumField.t :=
  ALAddendumField.new (Some "children") (Some 2).
Definition roomy_children_field : ALAddendumField.t :=
  ALAddendumField.new (Some "children") (Some 3).
Definition unset_field : ALAddendumField.t :=
  ALAddendumField.new (Some "address") (Some 5).

Definition fields (l : list (string * ALAddendumField.t)) : ALAddendumFieldDict.t :=
  ALAddendumFieldDict.new (Some "ALAddendumField") (Some false)
    (Some "overflow_only") None l.

Definition renditions (name : string) : gmap string artifact :=
  {[ "final" := Artifact (name +:+ ".final");
     "preview" := Artifact (name +:+ ".preview") ]}.

(** A document with an addendum whose one field overflows. *)
Definition doc_A : ALDocument.t :=
  ALDocument.new "A.pdf" true true (Some (Artifact "A.addendum")) "..."
    (fields [("name", name_field)]) (renditions "A").

(** The same document over a value that fits. *)
Definition doc_B : ALDocument.t :=
  ALDocument.new "B.pdf" true true (Some (Artifact "B.addendum")) "..."
    (fields [("nickname", nickname_field)]) (renditions "B").

(** A disabled document, without addendum. *)
Definition doc_C : ALDocument.t :=
  ALDocument.new "C.pdf" false false None ""
    (fields [("name", name_field)]) (renditions "C").

Definition inner : ALDocumentBundle.t :=
  ALDocumentBundle.new "inner.pdf" None
    [ALDocumentBundle.Document doc_A].

Definition flat : ALDocumentBundle.t :=
  ALDocumentBundle.new "flat.pdf" None
    [ALDocumentBundle.Document doc_A; ALDocumentBundle.Document doc_C;
     ALDocumentBundle.Document doc_B].

Definition nested : ALDocumentBundle.t :=
  ALDocumentBundle.new "nested.pdf" None
    [ALDocumentBundle.Document doc_B; ALDocumentBundle.Bundle inner].

Definition two_levels : ALDocumentBundle.t :=
  ALDocumentBundle.new "two_levels.pdf" None
    [ALDocumentBundle.Document doc_C; ALDocumentBundle.Bundle flat].

Definition bundles : ALDocumentBundleDict.t :=
  ALDocumentBundleDict.new (Some "ALBundle") (Some false) (Some true)
    {[ "user_bundle" := flat; "court_bundle" := flat ]}.

Definition records : list ALAddendumFieldDict.entry :=
  [ALAddendumFieldDict.Entry "name" 5; ALAddendumFieldDict.Entry "children" 2].

(** A document that says it has an addendum and was given none. *)
Definition doc_D : ALDocument.t :=
  ALDocument.new "D.pdf" true true None "..."
    (fields [("name", name_field)]) (renditions "D").

(** A disabled document without attachments. *)
Definition doc_E : ALDocument.t :=
  ALDocument.new "E.pdf" false false None "" (fields []) ∅.

(** An enabled document without attachments. *)
Definition doc_F : ALDocument.t :=
  ALDocument.new "F.pdf" true false None "" (fields []) ∅.

(** A field that was created by a lookup and has no trigger yet. *)
Definition bare_field : ALAddendumField.t :=
  ALAddendumField.new (Some "address") None.

Definition negative_field : ALAddendumField.t :=
  ALAddendumField.new (Some "address") (Some (-1)).

(** A document none of whose variables is set. *)
Definition doc_G : ALDocument.t :=
  ALDocument.new "G.pdf" true true (Some (Artifact "G.addendum")) "..."
    (fields [("address", bare_field)]) (renditions "G").

Definition off : ALDocumentBundle.t :=
  ALDocumentBundle.new "off.pdf" None
    [ALDocumentBundle.Document doc_C; ALDocumentBundle.Document doc_E].

Definition broken : ALDocumentBundle.t :=
  ALDocumentBundle.new "broken.pdf" None
    [ALDocumentBundle.Document doc_A; ALDocumentBundle.Document doc_F;
     ALDocumentBundle.Document doc_B].

(** A bundle of a document and of a bundle that itself holds a bundle. *)
Definition deep : ALDocumentBundle.t :=
  ALDocumentBundle.new "deep.pdf" None
    [ALDocumentBundle.Document doc_A; ALDocumentBundle.Bundle nested].

End Demo.

(** * Properties *)

(** ** Strings and slices *)

Lemma str_app_cons (c : Ascii.ascii) (a b : string) :
  String c a +:+ b = String c (a +:+ b).
Proof. reflexivity. Qed.

Lemma str_take_drop (n : nat) (s : string) : str_take n s +:+ str_drop n s = s.
Proof.
  revert s; induction n as [|n IH]; intros [|c s]; simpl; try reflexivity.
  rewrite str_app_cons. f_equal. apply IH.
Qed.

Lemma str_length_app (a b : string) :
  String.length (a +:+ b) = (String.length a + String.length b)%nat.
Proof.
  induction a as [|c a IH]; [reflexivity|].
  rewrite str_app_cons. simpl. f_equal. apply IH.
Qed.

Lemma str_length_drop (n : nat) (s : string) :
  String.length (str_drop n s) = (String.length s - n)%nat.
Proof.
  revert s; induction n as [|n IH]; intros [|c s]; simpl; try reflexivity.
  apply IH.
Qed.

Lemma str_app_empty (s : string) : s +:+ "" = s.
Proof.
  induction s as [|c s IH]; [reflexivity|].
  rewrite str_app_cons. f_equal. apply IH.
Qed.

Lemma adjust_index_nonneg (i : Z) (n : nat) :
  0 ≤ i → adjust_index i n = Z.to_nat (Z.min i (Z.of_nat n)).
Proof.
  intros Hi. unfold adjust_index.
  destruct (Z.ltb_spec i 0) as [Hlt|_]; [lia | reflexivity].
Qed.

Lemma len_nonneg (v : pyval) : 0 ≤ len v.
Proof. destruct v; simpl; lia. Qed.

Lemma len_slice_from (t : Z) (v : pyval) :
  0 ≤ t → len (slice_from t v) = Z.max 0 (len v - t).
Proof.
  intros Ht. destruct v as [s|l]; simpl; rewrite adjust_index_nonneg by done.
  - rewrite str_length_drop. lia.
  - rewrite length_drop. lia.
Qed.

(** [v[:t] + v[t:]] is [v], whatever the sign of [t]. *)
Lemma slice_to_from (t : Z) (v : pyval) : add (slice_to t v) (slice_from t v) = Ok v.
Proof.
  destruct v as [s|l]; simpl.
  - by rewrite str_take_drop.
  - by rewrite take_drop.
Qed.

(** ** ALAddendumField *)

Section field_properties.
Context (store : gmap string pyval).
Import ALAddendumField.

Lemma value_if_defined_eq (f : t) (name : string) :
  field_name f = Some name →
  value_if_defined store f = Ok (default (VStr "") (store !! name)).
Proof.
  intros Hn. unfold value_if_defined, defined, value. rewrite Hn. simpl.
  case_bool_decide as Hdef; simpl.
  - destruct Hdef as [v Hv]. by rewrite Hv.
  - destruct (store !! name) as [v|] eqn:Hv; [|done].
    exfalso. apply Hdef. eauto.
Qed.

Lemma overflow_value_eq (f : t) (trigger : Z) (v : pyval) :
  overflow_trigger f = Some trigger →
  value_if_defined store f = Ok v →
  overflow_value store f =
    Ok (if len v >? trigger then slice_from trigger v else VStr "").
Proof.
  intros Ht Hv. unfold overflow_value. rewrite Hv, Ht. simpl.
  by destruct (len v >? trigger).
Qed.

Lemma safe_value_eq (f : t) (trigger : Z) (v : pyval) (m : string) :
  overflow_trigger f = Some trigger →
  value_if_defined store f = Ok v →
  safe_value store f m =
    if len v >? trigger then
      if isinstance_str v then add (slice_to trigger v) (VStr m)
      else Ok (slice_to trigger v)
    else Ok v.
Proof.
  intros Ht Hv. unfold safe_value. rewrite Hv, Ht. simpl.
  destruct (len v >? trigger); [|done].
  by destruct (isinstance_str v).
Qed.

(** C4. For a field whose value is a string, the safe value with an empty
    marker followed by the overflow value is the full value, and their
    lengths add up to its length. *)
Theorem safe_value_overflow_value_reconstruct (f : t) (trigger : Z) (s : string) :
  overflow_trigger f = Some trigger →
  value_if_defined store f = Ok (VStr s) →
  ∃ a b, safe_value store f "" = Ok (VStr a) ∧
         overflow_value store f = Ok (VStr b) ∧
         a +:+ b = s ∧
         len (VStr a) + len (VStr b) = len (VStr s).
Proof.
  intros Ht Hv.
  rewrite (safe_value_eq f trigger (VStr s) "" Ht Hv).
  rewrite (overflow_value_eq f trigger (VStr s) Ht Hv).
  destruct (len (VStr s) >? trigger); simpl.
  - eexists _, _. split; [reflexivity|]. split; [reflexivity|].
    rewrite str_app_empty. split; [apply str_take_drop|].
    rewrite <- Nat2Z.inj_add, <- str_length_app. by rewrite str_take_drop.
  - exists s, "". split; [reflexivity|]. split; [reflexivity|].
    split; [apply str_app_empty | simpl; lia].
Qed.

(** C5. For a field whose trigger is not negative, the overflow value is
    non-empty exactly when the full value is longer than the trigger, and
    it is then the part of the full value from the trigger on. *)
Theorem overflow_value_nonempty_iff (f : t) (trigger : Z) (v : pyval) :
  overflow_trigger f = Some trigger →
  0 ≤ trigger →
  value_if_defined store f = Ok v →
  ∃ o, overflow_value store f = Ok o ∧
       (0 < len o ↔ trigger < len v) ∧
       (0 < len o → o = slice_from trigger v).
Proof.
  intros Ht Hpos Hv.
  rewrite (overflow_value_eq f trigger v Ht Hv).
  destruct (Z.gtb_spec (len v) trigger) as [Hgt|Hle].
  - exists (slice_from trigger v). split; [reflexivity|].
    rewrite len_slice_from by done. split; [lia | done].
  - exists (VStr ""). split; [reflexivity|]. simpl. lia.
Qed.

(** C10. A value that does not overflow gives the empty string as overflow
    value, also when it is a list, and itself as safe value whatever the
    marker; the marker changes the safe value only of a string that
    overflows, to which it is appended. *)
Theorem no_overflow_no_marker (f : t) (trigger : Z) (v : pyval) :
  overflow_trigger f = Some trigger →
  value_if_defined store f = Ok v →
  (len v ≤ trigger →
     overflow_value store f = Ok (VStr "") ∧
     ∀ m, safe_value store f m = Ok v) ∧
  (isinstance_str v = false ∨ len v ≤ trigger →
     ∀ m, safe_value store f m = safe_value store f "") ∧
  (∀ s m, v = VStr s → trigger < len v →
     safe_value store f m =
       Ok (VStr (str_take (adjust_index trigger (String.length s)) s +:+ m))).
Proof.
  intros Ht Hv. split; [|split].
  - intros Hle. rewrite (overflow_value_eq f trigger v Ht Hv).
    destruct (Z.gtb_spec (len v) trigger) as [Hgt|_]; [lia|].
    split; [reflexivity|]. intros m.
    rewrite (safe_value_eq f trigger v m Ht Hv).
    destruct (Z.gtb_spec (len v) trigger); [lia | reflexivity].
  - intros Hcase m.
    rewrite !(safe_value_eq f trigger v _ Ht Hv).
    destruct (Z.gtb_spec (len v) trigger) as [Hgt|_]; [|reflexivity].
    destruct Hcase as [Hstr|Hle]; [|lia]. by rewrite Hstr.
  - intros s m -> Hgt.
    rewrite (safe_value_eq f trigger (VStr s) m Ht Hv).
    destruct (Z.gtb_spec (len (VStr s)) trigger); [reflexivity | lia].
Qed.

(** With a negative trigger the slice counts from the end: the overflow
    value of an empty value is then empty although the value is longer
    than the trigger. *)
Example overflow_value_negative_trigger :
  overflow_value Demo.store (new (Some "address") (Some (-1))) = Ok (VStr "").
Proof. reflexivity. Qed.

End field_properties.

(** ** Comprehensions *)

Lemma comprehension_if_filter {A} (p : A → result bool) (l : list A) :
  (∀ x, x ∈ l → is_Ok (p x) = true) →
  comprehension_if p l =
    Ok (List.filter (λ x, match p x with Ok b => b | Err _ => false end) l).
Proof.
  induction l as [|x l IH]; intros Hok; simpl; [reflexivity|].
  assert (Hx : is_Ok (p x) = true) by (apply Hok; left).
  destruct (p x) as [b|e]; [|discriminate]. simpl.
  rewrite IH by (intros y Hy; apply Hok; by right). simpl.
  by destruct b.
Qed.

Lemma filter_nonempty {A} (q : A → bool) (l : list A) :
  (0 < length (List.filter q l))%nat ↔ ∃ x, x ∈ l ∧ q x = true.
Proof.
  induction l as [|x l IH]; simpl.
  - split; [lia | intros (x & Hx & _); by apply elem_of_nil in Hx].
  - destruct (q x) eqn:Hq; simpl.
    + split; [intros _; exists x; split; [left | done] | lia].
    + rewrite IH. split.
      * intros (y & Hy & Hqy). exists y. split; [by right | done].
      * intros (y & Hy & Hqy). apply elem_of_cons in Hy as [->|Hy]; [congruence|].
        by exists y.
Qed.

Lemma comprehension_length {A B} (f : A → result B) (l : list A) (out : list B) :
  comprehension f l = Ok out → Forall2 (λ x y, f x = Ok y) l out.
Proof.
  revert out; induction l as [|x l IH]; intros out; simpl.
  - intros [= <-]. constructor.
  - destruct (f x) as [y|e] eqn:Hfx; simpl; [|discriminate].
    destruct (comprehension f l) as [ys|e]; simpl; [|discriminate].
    intros [= <-]. constructor; [done | by apply IH].
Qed.

Lemma comprehension_total {A B} (f : A → result B) (l : list A) :
  (∀ x, x ∈ l → is_Ok (f x) = true) → ∃ out, comprehension f l = Ok out.
Proof.
  induction l as [|x l IH]; intros Hok; simpl; [by eexists|].
  assert (Hx : is_Ok (f x) = true) by (apply Hok; left).
  destruct (f x) as [y|e]; [|discriminate]. simpl.
  destruct IH as [ys ->]; [intros z Hz; apply Hok; by right|].
  simpl. by eexists.
Qed.

(** ** Ordered dictionaries *)

Lemma od_get_set_eq {V} (k : string) (v : V) (od : list (string * V)) :
  od_get k (od_set k v od) = Some v.
Proof.
  induction od as [|[k' v'] od IH]; simpl.
  - by rewrite decide_True.
  - destruct (decide (k' = k)) as [->|Hne]; simpl.
    + by rewrite decide_True.
    + by rewrite decide_False.
Qed.

Lemma od_get_alter_eq {V} (f : V → V) (k : string) (od : list (string * V)) :
  od_get k (od_alter f k od) = f <$> od_get k od.
Proof.
  induction od as [|[k' v'] od IH]; simpl; [reflexivity|].
  destruct (decide (k' = k)) as [->|Hne]; simpl.
  - by rewrite decide_True.
  - by rewrite decide_False.
Qed.

(** ** ALAddendumFieldDict and ALDocument *)

Section document_properties.
Context (store : gmap string pyval).
Import ALAddendumField ALAddendumFieldDict.

Lemma defined_is_Some (name : string) :
  defined store name = true ↔ is_Some (store !! name).
Proof. unfold defined. apply bool_decide_eq_true. Qed.

(** A field whose variable is not set is left out by both tests, without
    a look at its trigger. *)
Lemma is_overflow_field_unset (f : ALAddendumField.t) (name : string) :
  field_name f = Some name → store !! name = None →
  is_overflow_field store f = Ok false ∧ is_defined_field store f = Ok false.
Proof.
  intros Hn Hv. unfold is_overflow_field, is_defined_field. rewrite Hn. simpl.
  assert (Hd : defined store name = false).
  { apply not_true_is_false. rewrite defined_is_Some, Hv. by intros [? ?]. }
  by rewrite Hd.
Qed.

Lemma is_overflow_field_complete (f : ALAddendumField.t) :
  complete f →
  ∃ b, is_overflow_field store f = Ok b ∧ (b = true ↔ overflowing store f).
Proof.
  intros [[name Hn] [trigger Ht]].
  pose proof (value_if_defined_eq store f name Hn) as Hv.
  pose proof (overflow_value_eq store f trigger _ Ht Hv) as Ho.
  unfold is_overflow_field. rewrite Hn. simpl.
  destruct (defined store name) eqn:Hd.
  - rewrite Ho. simpl. eexists. split; [reflexivity|].
    apply defined_is_Some in Hd. rewrite negb_true_iff, Z.eqb_neq. split.
    + intros Hne. exists name. eexists. repeat split; try done.
      match goal with |- 0 < len ?o => pose proof (len_nonneg o) end. lia.
    + intros (name' & o & _ & _ & Ho' & Hlen).
      rewrite Ho in Ho'. injection Ho' as ->. lia.
  - exists false. split; [reflexivity|]. split; [discriminate|].
    intros (name' & o & Hn' & Hsome & _).
    rewrite Hn in Hn'. injection Hn' as <-.
    apply defined_is_Some in Hsome. congruence.
Qed.

Lemma has_overflow_complete (d : ALDocument.t) :
  ALDocument.fields_complete d →
  ∃ b, ALDocument.has_overflow store d = Ok b ∧
       (b = true ↔ ALDocument.has_overflowing_field store d).
Proof.
  intros Hall. unfold ALDocument.fields_complete in Hall.
  rewrite Forall_forall in Hall.
  unfold ALDocument.has_overflow, ALDocument.overflow, overflow, defined_fields.
  rewrite decide_True by reflexivity.
  rewrite comprehension_if_filter.
  2:{ intros f Hf. destruct (is_overflow_field_complete f (Hall f Hf)) as (b & -> & _).
      reflexivity. }
  simpl. eexists. split; [reflexivity|].
  rewrite bool_decide_eq_true, filter_nonempty.
  unfold ALDocument.has_overflowing_field.
  split; intros (f & Hf & H); exists f; (split; [done|]);
    destruct (is_overflow_field_complete f (Hall f Hf)) as (b & Hb & Hiff);
    rewrite Hb in *; by apply Hiff.
Qed.

(** C2. With the attachment at [key] in place, [as_list] is the attachment
    alone for a document without addendum, whatever its fields are; for a
    document with an addendum it is the attachment followed by the
    addendum when some field overflows, and the attachment alone when
    none does. *)
Theorem as_list_addendum (d : ALDocument.t) (key : string) (main : artifact) :
  ALDocument.elements d !! key = Some main →
  (ALDocument.has_addendum d = false →
     ALDocument.as_list store d key = Ok [main]) ∧
  (ALDocument.has_addendum d = true → ALDocument.fields_complete d →
     (ALDocument.has_overflowing_field store d →
        ∀ a, ALDocument.addendum d = Some a →
             ALDocument.as_list store d key = Ok [main; a]) ∧
     (¬ ALDocument.has_overflowing_field store d →
        ALDocument.as_list store d key = Ok [main])).
Proof.
  intros Hmain. unfold ALDocument.as_list, ALDocument.getitem.
  rewrite Hmain. split.
  - by intros ->.
  - intros -> Hall.
    destruct (has_overflow_complete d Hall) as (b & -> & Hiff). simpl.
    split.
    + intros Hov a Ha. apply Hiff in Hov as ->. by rewrite Ha.
    + intros Hno. destruct b; [|reflexivity].
      exfalso. apply Hno. by apply Hiff.
Qed.

(** C7. [value_if_defined] returns the variable's value when the variable
    is set and the empty string when it is not; a field whose variable is
    not set has the empty string as overflow value and is left out by the
    tests of [defined_fields], without an error. *)
Theorem value_if_defined_never_fails (f : ALAddendumField.t) (name : string) :
  field_name f = Some name →
  (∀ v, store !! name = Some v → value_if_defined store f = Ok v) ∧
  (store !! name = None →
     value_if_defined store f = Ok (VStr "") ∧
     (∀ trigger, overflow_trigger f = Some trigger →
                 overflow_value store f = Ok (VStr "")) ∧
     is_overflow_field store f = Ok false ∧
     is_defined_field store f = Ok false).
Proof.
  intros Hn. pose proof (value_if_defined_eq store f name Hn) as Hv. split.
  - intros v Hs. by rewrite Hv, Hs.
  - intros Hs. rewrite Hs in Hv. simpl in Hv. split; [done|]. split.
    + intros trigger Ht. rewrite (overflow_value_eq store f trigger _ Ht Hv).
      destruct (len (VStr "") >? trigger); [|reflexivity].
      simpl. by destruct (adjust_index trigger 0).
    + by apply is_overflow_field_unset with name.
Qed.

(** [initializeObject] stores a new field under the key, stamps the key
    on it as its [field_name], and returns [None]. *)
Lemma initializeObject_eq (the_key : string) (c : ALAddendumFieldDict.t) :
  initializeObject the_key c =
    (Ok RNone,
     set_elements
       (od_alter (λ f, ALAddendumField.new (Some the_key) (overflow_trigger f))
          the_key
          (od_set the_key (ALAddendumField.new None None) (elements c))) c).
Proof. destruct c; reflexivity. Qed.

Lemma initializeObject_entry (the_key : string) (c : ALAddendumFieldDict.t) :
  od_get the_key (elements (initializeObject the_key c).2) =
    Some (ALAddendumField.new (Some the_key) None).
Proof.
  rewrite initializeObject_eq. simpl.
  by rewrite od_get_alter_eq, od_get_set_eq.
Qed.

Lemma getitem_registered (k : string) (c : ALAddendumFieldDict.t) f :
  od_get k (elements c) = Some f → getitem k c = (Ok (RField k), c).
Proof.
  intros Hk. unfold getitem, mbind, M_mbind, M_bind, M_get. by rewrite Hk.
Qed.

Lemma getitem_unregistered (k cls : string) (c : ALAddendumFieldDict.t) :
  od_get k (elements c) = None → object_type c = Some cls →
  getitem k c = (Ok (RField k), (initializeObject k c).2).
Proof.
  intros Hk Hcls. unfold getitem at 1, mbind, M_mbind, M_bind, M_get.
  rewrite Hk, Hcls. by rewrite initializeObject_eq.
Qed.


(** C8. [from_list] fails on every list that is not empty: the override
    of [initializeObject] returns [None], on which the next line sets an
    attribute.  The first record's name is registered by then, without a
    trigger.  The load at [init] fails one step earlier, on the name
    [data]. *)
Theorem from_list_fails (entry : ALAddendumFieldDict.entry)
    (data : list ALAddendumFieldDict.entry) (c : ALAddendumFieldDict.t) :
  (from_list (entry :: data) c).1 = Err (AttributeError "NoneType" "field_name") ∧
  od_get (entry_field_name entry) (elements (from_list (entry :: data) c).2) =
    Some (ALAddendumField.new (Some (entry_field_name entry)) None) ∧
  ∀ kw_style kw_data c0, (init kw_style (Some kw_data) c0).1 = Err (NameError "data").
Proof.
  split; [|split].
  - cbn [from_list]. unfold mbind, M_mbind, M_bind.
    by rewrite initializeObject_eq.
  - cbn [from_list]. unfold mbind, M_mbind, M_bind.
    rewrite initializeObject_eq. cbn [fst snd setattr_field_name M_raise].
    cbn [elements set_elements].
    by rewrite od_get_alter_eq, od_get_set_eq.
  - intros [kw_style|] kw_data c0; reflexivity.
Qed.

Example from_list_records :
  from_list Demo.records (Demo.fields []) =
    (Err (AttributeError "NoneType" "field_name"),
     Demo.fields [("name", ALAddendumField.new (Some "name") None)]).
Proof. reflexivity. Qed.

(** An empty list loads, and [init] without [data] leaves an empty
    dictionary whose [object_type] is set. *)
Lemma from_list_nil (c : ALAddendumFieldDict.t) : from_list [] c = (Ok (), c).
Proof. reflexivity. Qed.

Lemma init_without_data (kw_style : option string) (c0 : ALAddendumFieldDict.t) :
  init kw_style None c0 =
    (Ok (), ALAddendumFieldDict.new (Some "ALAddendumField") (Some false)
              (Some (default "overflow_only" kw_style)) None []).
Proof. by destruct kw_style. Qed.

End document_properties.

(** ** ALDocumentBundle and ALDocumentBundleDict *)

Section bundle_properties.
Context (store : gmap string pyval).
Context (pdf_concatenate : list artifact → string → result artifact).
Import ALDocumentBundle.

Lemma spec_flatten_cons (filename : string) (enabled : option bool)
    (child : item) (rest : list item) (key : string) :
  spec_flatten store (new filename enabled (child :: rest)) key =
    (l ← spec_flatten_item store child key;
     ls ← spec_flatten store (new filename enabled rest) key;
     Ok (l ++ ls)%list).
Proof. reflexivity. Qed.

(** The loop stops with an exception at the first child that is a
    bundle, if not before. *)
Lemma as_flat_list_from_bundle (before after : list item) (b : t)
    (key : string) (flat_list : list artifact) :
  is_Ok (as_flat_list_from store (before ++ Bundle b :: after) key flat_list) = false.
Proof.
  revert flat_list; induction before as [|[d|b'] before IH]; intros flat_list;
    simpl; [reflexivity | | reflexivity].
  destruct (ALDocument.enabled d); [|apply IH].
  destruct (ALDocument.as_list store d key) as [l|e]; simpl;
    [apply IH | reflexivity].
Qed.

(** On children that are all documents the loop gathers what the
    specification's flattening gives. *)
Lemma as_flat_list_from_documents (filename : string) (enabled : option bool)
    (ds : list ALDocument.t) (key : string) (flat_list : list artifact) :
  as_flat_list_from store (Document <$> ds) key flat_list =
    (l ← spec_flatten store (new filename enabled (Document <$> ds)) key;
     Ok (flat_list ++ l)%list).
Proof.
  revert flat_list; induction ds as [|d ds IH]; intros flat_list.
  - simpl. by rewrite app_nil_r.
  - rewrite fmap_cons, spec_flatten_cons.
    remember (spec_flatten store (new filename enabled (Document <$> ds)) key)
      as tail eqn:Htail in *.
    simpl. destruct (ALDocument.enabled d).
    + destruct (ALDocument.as_list store d key) as [l|e]; simpl; [|reflexivity].
      rewrite IH.
      destruct tail; simpl; [by rewrite app_assoc | reflexivity].
    + simpl. rewrite IH. by destruct tail.
Qed.

Lemma as_flat_list_documents (filename : string) (enabled : option bool)
    (ds : list ALDocument.t) (key : string) :
  as_flat_list store (new filename enabled (Document <$> ds)) key =
    spec_flatten store (new filename enabled (Document <$> ds)) key.
Proof.
  unfold as_flat_list. cbn [elements].
  rewrite (as_flat_list_from_documents filename enabled).
  by destruct (spec_flatten store (new filename enabled (Document <$> ds)) key).
Qed.

(** C1. [as_flat_list] returns no list for a bundle that has a bundle
    among its children: on such a child it calls [as_list], which bundles
    do not have.  For a document followed by a bundle of one document the
    specification's flattening gives three attachments, the code an
    error. *)
Theorem as_flat_list_sub_bundle :
  (∀ filename enabled before b after key,
     is_Ok (as_flat_list store
              (new filename enabled (before ++ Bundle b :: after)) key) = false) ∧
  as_flat_list Demo.store Demo.nested "final" = Err (DAAttributeError "as_list") ∧
  spec_flatten Demo.store Demo.nested "final" =
    Ok [Artifact "B.final"; Artifact "A.final"; Artifact "A.addendum"].
Proof.
  split; [|split; reflexivity].
  intros. unfold as_flat_list. simpl. apply as_flat_list_from_bundle.
Qed.

Lemma as_pdf_set_enabled (d : ALDocument.t) (e : bool) (key : string) :
  ALDocument.as_pdf store pdf_concatenate (ALDocument.set_enabled e d) key =
    ALDocument.as_pdf store pdf_concatenate d key.
Proof. reflexivity. Qed.

(** The list that [as_pdf_list] returns has one entry for each child. *)
Lemma as_pdf_list_length (b : t) (key : string) (pdfs : list artifact) :
  as_pdf_list store pdf_concatenate b key = Ok pdfs →
  length pdfs = length (elements b).
Proof.
  intros H. apply comprehension_length in H.
  symmetry. by eapply Forall2_length.
Qed.

(** C9. No instance of [ALDocumentBundleDict] can be made, since [init]
    refers to a class [ALBundleList] that the module does not have; and
    [preview] and [as_attachment], defined without [self], fail on that
    name whatever the dictionary and the role are. *)
Theorem bundle_dict_fails (d : ALDocumentBundleDict.t) (r : string) :
  ALDocumentBundleDict.construct = Err (NameError "ALBundleList") ∧
  ALDocumentBundleDict.call_preview store pdf_concatenate d r =
    Err (NameError "self") ∧
  ALDocumentBundleDict.call_as_attachment store pdf_concatenate d r =
    Err (NameError "self").
Proof. repeat split. Qed.

End bundle_properties.

(** The bundle at the role has a preview and a list of PDFs, which the
    methods of the dictionary do not reach. *)
Example bundle_dict_preview_diverges :
  ALDocumentBundleDict.elements Demo.bundles !! "user_bundle" = Some Demo.flat ∧
  ALDocumentBundle.as_pdf Demo.store Demo.pdf_concatenate Demo.flat "preview" =
    Ok (Artifact "flat.pdf") ∧
  ALDocumentBundleDict.call_preview Demo.store Demo.pdf_concatenate
    Demo.bundles "user_bundle" = Err (NameError "self") ∧
  ALDocumentBundle.as_pdf_list Demo.store Demo.pdf_concatenate Demo.flat "final" =
    Ok [Artifact "A.pdf"; Artifact "C.pdf"; Artifact "B.pdf"] ∧
  ALDocumentBundleDict.call_as_attachment Demo.store Demo.pdf_concatenate
    Demo.bundles "user_bundle" = Err (NameError "self").
Proof. repeat split. Qed.

(** ** The statements at the small interview *)


Lemma as_list_addendum_witness :
  ALDocument.as_list Demo.store Demo.doc_A "final" =
    Ok [Artifact "A.final"; Artifact "A.addendum"] ∧
  ALDocument.as_list Demo.store Demo.doc_B "preview" = Ok [Artifact "B.preview"] ∧
  ALDocument.as_list Demo.store Demo.doc_C "final" = Ok [Artifact "C.final"].
Proof.
  split; [|split].
  - destruct (as_list_addendum Demo.store Demo.doc_A "final" (Artifact "A.final") eq_refl)
      as [_ H].
    destruct (H eq_refl) as [Hov _].
    { repeat constructor; eexists; reflexivity. }
    apply Hov; [|reflexivity].
    exists Demo.name_field. split; [apply list_elem_of_here|].
    exists "name", (VStr "ndria").
    split; [reflexivity|]. split; [by eexists|]. split; reflexivity.
  - destruct (as_list_addendum Demo.store Demo.doc_B "preview" (Artifact "B.preview") eq_refl)
      as [_ H].
    destruct (H eq_refl) as [_ Hno].
    { repeat constructor; eexists; reflexivity. }
    apply Hno. intros (f & Hf & name & v & _ & _ & Ho & Hlen).
    apply list_elem_of_singleton in Hf as ->.
    vm_compute in Ho. injection Ho as <-. discriminate Hlen.
  - destruct (as_list_addendum Demo.store Demo.doc_C "final" (Artifact "C.final") eq_refl)
      as [H _].
    apply H. reflexivity.
Defined.


Lemma safe_value_overflow_value_reconstruct_witness :
  ∃ a b, ALAddendumField.safe_value Demo.store Demo.name_field "" = Ok (VStr a) ∧
         ALAddendumField.overflow_value Demo.store Demo.name_field = Ok (VStr b) ∧
         a +:+ b = "Alexandria" ∧
         len (VStr a) + len (VStr b) = len (VStr "Alexandria").
Proof.
  apply (safe_value_overflow_value_reconstruct Demo.store Demo.name_field 5 "Alexandria");
    reflexivity.
Defined.

Lemma overflow_value_nonempty_iff_witness :
  ∃ o, ALAddendumField.overflow_value Demo.store Demo.children_field = Ok o ∧
       (0 < len o ↔ 2 < 3) ∧
       (0 < len o →
        o = slice_from 2 (VList [VStr "Ada"; VStr "Ben"; VStr "Cy"])).
Proof.
  apply (overflow_value_nonempty_iff Demo.store Demo.children_field 2
           (VList [VStr "Ada"; VStr "Ben"; VStr "Cy"]));
    [reflexivity | lia | reflexivity].
Defined.

Lemma value_if_defined_never_fails_witness :
  ALAddendumField.value_if_defined Demo.store Demo.name_field = Ok (VStr "Alexandria") ∧
  ALAddendumField.value_if_defined Demo.store Demo.unset_field = Ok (VStr "").
Proof.
  split.
  - destruct (value_if_defined_never_fails Demo.store Demo.name_field "name" eq_refl)
      as [Hset _].
    apply Hset. reflexivity.
  - destruct (value_if_defined_never_fails Demo.store Demo.unset_field "address" eq_refl)
      as [_ Hunset].
    apply Hunset. reflexivity.
Defined.

Lemma no_overflow_no_marker_witness :
  ALAddendumField.overflow_value Demo.store Demo.roomy_children_field = Ok (VStr "") ∧
  ∀ m, ALAddendumField.safe_value Demo.store Demo.roomy_children_field m =
         Ok (VList [VStr "Ada"; VStr "Ben"; VStr "Cy"]).
Proof.
  destruct (no_overflow_no_marker Demo.store Demo.roomy_children_field 3
              (VList [VStr "Ada"; VStr "Ben"; VStr "Cy"]) eq_refl eq_refl)
    as [Hfit _].
  apply Hfit. simpl. lia.
Defined.

(** * Further properties of the code *)

(** ** Fields: lengths, missing attributes, negative triggers *)

Lemma str_length_take (n : nat) (s : string) :
  String.length (str_take n s) = (n `min` String.length s)%nat.
Proof.
  revert s; induction n as [|n IH]; intros [|c s]; simpl; try reflexivity.
  f_equal. apply IH.
Qed.

Lemma len_slice_to (t : Z) (v : pyval) :
  0 ≤ t → len (slice_to t v) = Z.min t (len v).
Proof.
  intros Ht. destruct v as [s|l]; simpl; rewrite adjust_index_nonneg by done.
  - rewrite str_length_take. lia.
  - rewrite length_take. lia.
Qed.

Section field_lengths.
Context (store : gmap string pyval).
Import ALAddendumField.

(** X1. With a trigger that is not negative, the safe value without marker
    is as long as the shorter of the value and the trigger, and the overflow
    value as long as what the value has beyond the trigger. *)
Theorem safe_value_fits (f : t) (trigger : Z) (v : pyval) :
  overflow_trigger f = Some trigger →
  0 ≤ trigger →
  value_if_defined store f = Ok v →
  ∃ safe over,
    safe_value store f "" = Ok safe ∧ overflow_value store f = Ok over ∧
    len safe = Z.min trigger (len v) ∧
    len over = Z.max 0 (len v - trigger).
Proof.
  intros Ht Hpos Hv.
  rewrite (safe_value_eq store f trigger v "" Ht Hv).
  rewrite (overflow_value_eq store f trigger v Ht Hv).
  destruct (Z.gtb_spec (len v) trigger) as [Hgt|Hle].
  - exists (slice_to trigger v), (slice_from trigger v).
    split.
    + destruct v as [s|l]; simpl; [by rewrite str_app_empty | reflexivity].
    + split; [reflexivity|].
      rewrite len_slice_to, len_slice_from by done. lia.
  - exists v, (VStr ""). destruct (isinstance_str v); simpl; repeat split; lia.
Qed.

(** X2. The marker is added after the cut: the safe value of a string
    longer than a trigger that is not negative has the length of the
    trigger plus that of the marker. *)
Theorem safe_value_marker_length (f : t) (trigger : Z) (s m : string) :
  overflow_trigger f = Some trigger →
  0 ≤ trigger →
  value_if_defined store f = Ok (VStr s) →
  trigger < len (VStr s) →
  ∃ safe, safe_value store f m = Ok (VStr safe) ∧
          len (VStr safe) = trigger + len (VStr m).
Proof.
  intros Ht Hpos Hv Hgt.
  rewrite (safe_value_eq store f trigger (VStr s) m Ht Hv).
  destruct (Z.gtb_spec (len (VStr s)) trigger) as [_|Hle]; [|lia].
  simpl. eexists. split; [reflexivity|].
  simpl in *. rewrite str_length_app, str_length_take.
  rewrite adjust_index_nonneg by done. lia.
Qed.

(** X3. A field without trigger still has its full value, while its
    overflow value and its safe value fail on the undefined trigger, also
    when the variable is not set; a field without name fails in all three. *)
Theorem field_missing_attribute (f : t) :
  (∀ name, field_name f = Some name → overflow_trigger f = None →
     is_Ok (value_if_defined store f) = true ∧
     overflow_value store f = Err (DAAttributeError "overflow_trigger") ∧
     ∀ m, safe_value store f m = Err (DAAttributeError "overflow_trigger")) ∧
  (field_name f = None →
     value_if_defined store f = Err (DAAttributeError "field_name") ∧
     overflow_value store f = Err (DAAttributeError "field_name") ∧
     ∀ m, safe_value store f m = Err (DAAttributeError "field_name")).
Proof.
  split.
  - intros name Hn Ht.
    pose proof (value_if_defined_eq store f name Hn) as Hv.
    unfold overflow_value, safe_value. rewrite Hv, Ht. by repeat split.
  - intros Hn. unfold overflow_value, safe_value, value_if_defined.
    rewrite Hn. by repeat split.
Qed.

(** X4. With a negative trigger every value counts as too long; for a
    variable that is not set the overflow value is empty and the safe value
    is the marker alone, whereas a trigger that is not negative gives the
    empty string. *)
Theorem safe_value_unset_variable (f : t) (name : string) (trigger : Z) (m : string) :
  field_name f = Some name →
  store !! name = None →
  overflow_trigger f = Some trigger →
  overflow_value store f = Ok (VStr "") ∧
  safe_value store f m = Ok (VStr (if trigger <? 0 then m else "")).
Proof.
  intros Hn Hs Ht.
  pose proof (value_if_defined_eq store f name Hn) as Hv.
  rewrite Hs in Hv. simpl in Hv.
  rewrite (overflow_value_eq store f trigger _ Ht Hv).
  rewrite (safe_value_eq store f trigger _ m Ht Hv).
  change (len (VStr "")) with 0.
  destruct (Z.gtb_spec 0 trigger) as [Hneg|Hpos].
  - destruct (Z.ltb_spec trigger 0); [|lia].
    simpl. by destruct (adjust_index trigger 0).
  - by destruct (Z.ltb_spec trigger 0); [lia|].
Qed.

(** X5. [columns] returns for no field: it stops at the name [headers],
    which nothing binds. *)
Theorem columns_fails (f : t) : columns f = Err (NameError "headers").
Proof. reflexivity. Qed.

End field_lengths.

(** ** Field dictionaries: what [defined_fields] selects *)

Lemma comprehension_if_sublist {A} (p : A → result bool) (l out : list A) :
  comprehension_if p l = Ok out →
  out `sublist_of` l ∧
  Forall (λ x, p x = Ok true) out ∧
  ∀ x, x ∈ l → p x = Ok true → x ∈ out.
Proof.
  revert out; induction l as [|x l IH]; intros out; simpl.
  - intros [= <-]. split; [constructor|]. split; [constructor|].
    intros x Hx. by apply elem_of_nil in Hx.
  - destruct (p x) as [b|e] eqn:Hpx; simpl; [|discriminate].
    destruct (comprehension_if p l) as [xs|e]; simpl; [|discriminate].
    destruct (IH xs eq_refl) as (Hsub & Hall & Hin).
    intros [= <-]. destruct b.
    + split; [by constructor|]. split; [by constructor|].
      intros y Hy Hpy. apply elem_of_cons in Hy as [->|Hy]; [left|right; auto].
    + split; [by constructor|]. split; [done|].
      intros y Hy Hpy. apply elem_of_cons in Hy as [->|Hy]; [congruence | auto].
Qed.

Lemma comprehension_if_mono {A} (p q : A → result bool) (l out1 out2 : list A) :
  (∀ x, p x = Ok true → q x = Ok true) →
  comprehension_if p l = Ok out1 →
  comprehension_if q l = Ok out2 →
  out1 `sublist_of` out2.
Proof.
  intros Hpq. revert out1 out2; induction l as [|x l IH]; intros out1 out2; simpl.
  - intros [= <-] [= <-]. constructor.
  - destruct (p x) as [b1|e] eqn:Hpx; simpl; [|discriminate].
    destruct (comprehension_if p l) as [xs1|e]; simpl; [|discriminate].
    destruct (q x) as [b2|e] eqn:Hqx; simpl; [|discriminate].
    destruct (comprehension_if q l) as [xs2|e]; simpl; [|discriminate].
    intros [= <-] [= <-]. specialize (IH xs1 xs2 eq_refl eq_refl).
    destruct b1.
    + rewrite (Hpq x Hpx) in Hqx. injection Hqx as <-. by constructor.
    + destruct b2; [by constructor | done].
Qed.

Lemma comprehension_if_none {A} (p : A → result bool) (l : list A) :
  (∀ x, x ∈ l → p x = Ok false) → comprehension_if p l = Ok [].
Proof.
  induction l as [|x l IH]; intros Hp; simpl; [reflexivity|].
  rewrite (Hp x) by left. simpl. rewrite IH; [reflexivity|].
  intros y Hy. apply Hp. by right.
Qed.

Section dictionary_properties.
Context (store : gmap string pyval).
Import ALAddendumField ALAddendumFieldDict.

Lemma is_defined_field_true (f : ALAddendumField.t) :
  is_defined_field store f = Ok true →
  ∃ name, field_name f = Some name ∧ is_Some (store !! name).
Proof.
  unfold is_defined_field. destruct (field_name f) as [name|]; simpl; [|discriminate].
  intros [= Hd]. exists name. split; [done|]. by apply defined_is_Some.
Qed.

Lemma is_overflow_field_true (f : ALAddendumField.t) :
  is_overflow_field store f = Ok true →
  overflowing store f ∧ is_defined_field store f = Ok true.
Proof.
  unfold is_overflow_field, is_defined_field, overflowing.
  destruct (field_name f) as [name|]; simpl; [|discriminate].
  destruct (defined store name) eqn:Hd; [|discriminate].
  destruct (overflow_value store f) as [v|e]; simpl; [|discriminate].
  intros [= Hlen]. split; [|done].
  exists name, v. apply defined_is_Some in Hd.
  rewrite negb_true_iff, Z.eqb_neq in Hlen.
  pose proof (len_nonneg v). repeat split; [done | lia].
Qed.

(** X6. Whatever the style, the list that [defined_fields] returns is made
    of registered fields in the order of their registration, each with its
    variable set; with the style ["overflow_only"] each of them overflows,
    and every registered field that passes the test is in the list. *)
Theorem defined_fields_selects (c : ALAddendumFieldDict.t) (style : string)
    (out : list ALAddendumField.t) :
  defined_fields store c style = Ok out →
  out `sublist_of` od_values (elements c) ∧
  Forall (λ f, ∃ name, field_name f = Some name ∧ is_Some (store !! name)) out ∧
  (style = "overflow_only" →
     Forall (overflowing store) out ∧
     ∀ f, f ∈ od_values (elements c) → is_overflow_field store f = Ok true → f ∈ out).
Proof.
  unfold defined_fields. destruct (decide (style = "overflow_only")) as [->|Hne];
    intros Hc; apply comprehension_if_sublist in Hc as (Hsub & Hall & Hin).
  - split; [done|]. split.
    + eapply Forall_impl; [exact Hall|]. intros f Hf.
      apply is_overflow_field_true in Hf as [_ Hf]. by apply is_defined_field_true.
    + intros _. split; [|done].
      eapply Forall_impl; [exact Hall|]. intros f Hf.
      by apply is_overflow_field_true in Hf as [Hf _].
  - split; [done|]. split; [|done].
    eapply Forall_impl; [exact Hall|]. intros f Hf. by apply is_defined_field_true.
Qed.

(** X7. The fields that [overflow] returns are among the fields that
    [defined_fields] returns for any other style, in the same order. *)
Theorem overflow_within_defined (c : ALAddendumFieldDict.t) (style : string)
    (over all : list ALAddendumField.t) :
  style ≠ "overflow_only" →
  overflow store c = Ok over →
  defined_fields store c style = Ok all →
  over `sublist_of` all.
Proof.
  intros Hne. unfold overflow, defined_fields.
  rewrite decide_True by reflexivity. rewrite decide_False by done.
  apply comprehension_if_mono. intros f Hf.
  by apply is_overflow_field_true in Hf as [_ Hf].
Qed.

(** X8. When every registered field has a name and none of the variables
    is set, [defined_fields] returns the empty list for every style, also
    when triggers are missing. *)
Theorem defined_fields_nothing_set (c : ALAddendumFieldDict.t) (style : string) :
  (∀ f, f ∈ od_values (elements c) →
        ∃ name, field_name f = Some name ∧ store !! name = None) →
  defined_fields store c style = Ok [].
Proof.
  intros Hall. unfold defined_fields.
  destruct (decide (style = "overflow_only")); apply comprehension_if_none;
    intros f Hf; destruct (Hall f Hf) as (name & Hn & Hs);
    by destruct (is_overflow_field_unset store f name Hn Hs).
Qed.

End dictionary_properties.

(** ** Field dictionaries: lookups that register *)

Lemma od_get_set_ne {V} (k k' : string) (v : V) (od : list (string * V)) :
  k' ≠ k → od_get k' (od_set k v od) = od_get k' od.
Proof.
  intros Hne. induction od as [|[k0 v0] od IH]; simpl.
  - by rewrite decide_False.
  - destruct (decide (k0 = k)) as [->|Hk0]; simpl.
    + by rewrite !decide_False.
    + destruct (decide (k0 = k')); [done | apply IH].
Qed.

Lemma od_get_alter_ne {V} (f : V → V) (k k' : string) (od : list (string * V)) :
  k' ≠ k → od_get k' (od_alter f k od) = od_get k' od.
Proof.
  intros Hne. induction od as [|[k0 v0] od IH]; simpl; [reflexivity|].
  destruct (decide (k0 = k)) as [->|Hk0]; simpl.
  - by rewrite !decide_False.
  - destruct (decide (k0 = k')); [done | apply IH].
Qed.

Lemma od_get_elem_of {V} (k : string) (v : V) (od : list (string * V)) :
  od_get k od = Some v → (k, v) ∈ od.
Proof.
  induction od as [|[k0 v0] od IH]; simpl; [discriminate|].
  destruct (decide (k0 = k)) as [->|Hk0].
  - intros [= ->]. left.
  - intros H. right. by apply IH.
Qed.

Lemma elem_of_od_set {V} (k k' : string) (v v' : V) (od : list (string * V)) :
  (k', v') ∈ od_set k v od → (k' = k ∧ v' = v) ∨ (k', v') ∈ od.
Proof.
  induction od as [|[k0 v0] od IH]; simpl.
  - intros H. apply list_elem_of_singleton in H. injection H as -> ->. by left.
  - destruct (decide (k0 = k)) as [->|Hk0]; intros H;
      apply elem_of_cons in H as [H|H].
    + injection H as -> ->. by left.
    + right. by right.
    + right. rewrite H. left.
    + destruct (IH H) as [?|?]; [by left | right; by right].
Qed.

Lemma elem_of_od_alter {V} (f : V → V) (k k' : string) (v' : V)
    (od : list (string * V)) :
  (k', v') ∈ od_alter f k od →
  ∃ v0, (k', v0) ∈ od ∧ v' = if decide (k' = k) then f v0 else v0.
Proof.
  unfold od_alter. intros H. apply list_elem_of_fmap in H as ([k0 v0] & Heq & Hin).
  simpl in Heq. destruct (decide (k0 = k)) as [->|Hk0].
  - injection Heq as -> ->. exists v0. by rewrite decide_True.
  - injection Heq as -> ->. exists v0. by rewrite decide_False.
Qed.

Section lookup_properties.
Context (store : gmap string pyval).
Import ALAddendumField ALAddendumFieldDict.

Lemma getitem_state (k : string) (c : ALAddendumFieldDict.t) :
  (getitem k c).2 = c ∨
  (od_get k (elements c) = None ∧ (getitem k c).2 = (initializeObject k c).2).
Proof.
  unfold getitem at 1 2, mbind, M_mbind, M_bind, M_get.
  destruct (od_get k (elements c)) as [f|] eqn:Hk; [by left|].
  destruct (object_type c) as [cls|]; [|by left].
  right. split; [done|]. by rewrite initializeObject_eq.
Qed.

Lemma initializeObject_stamped (k : string) (c : ALAddendumFieldDict.t) :
  stamped c → stamped (initializeObject k c).2.
Proof.
  intros Hc k' f' Hin. rewrite initializeObject_eq in Hin. simpl in Hin.
  apply elem_of_od_alter in Hin as (f0 & Hin & ->).
  destruct (decide (k' = k)) as [->|Hne]; [reflexivity|].
  apply elem_of_od_set in Hin as [[? _]|Hin]; [done|]. by apply Hc.
Qed.

(** X9. A lookup keeps the dictionary such that every field is stored
    under its own [field_name], and the field that it returns bears the
    name that was looked up, whether it was there or has just been made. *)
Theorem getitem_keeps_stamped (k : string) (c : ALAddendumFieldDict.t) :
  stamped c →
  stamped (getitem k c).2 ∧
  ∀ r, (getitem k c).1 = Ok r →
       ∃ f, deref r (getitem k c).2 = Some f ∧ field_name f = Some k.
Proof.
  intros Hc. split.
  - destruct (getitem_state k c) as [->|[_ ->]];
      [done | by apply initializeObject_stamped].
  - intros r. destruct (od_get k (elements c)) as [f|] eqn:Hk.
    + rewrite (getitem_registered k c f Hk). simpl. intros [= <-].
      exists f. split; [done|]. apply (Hc k f). by apply od_get_elem_of.
    + destruct (object_type c) as [cls|] eqn:Hcls.
      * rewrite (getitem_unregistered k cls c Hk Hcls). cbn [fst snd].
        intros [= <-]. cbn [deref]. rewrite initializeObject_entry. by eexists.
      * unfold getitem, mbind, M_mbind, M_bind, M_get. rewrite Hk, Hcls.
        discriminate.
Qed.

(** X10. A lookup leaves the fields at all other keys as they are, and
    the lookup of a registered key changes nothing at all. *)
Theorem getitem_keeps_others (k : string) (c : ALAddendumFieldDict.t) :
  (∀ k', k' ≠ k → od_get k' (elements (getitem k c).2) = od_get k' (elements c)) ∧
  (∀ f, od_get k (elements c) = Some f → getitem k c = (Ok (RField k), c)).
Proof.
  split; [|apply getitem_registered].
  intros k' Hne. destruct (getitem_state k c) as [->|[_ ->]]; [done|].
  rewrite initializeObject_eq. simpl.
  by rewrite od_get_alter_ne, od_get_set_ne.
Qed.

(** X11. A dictionary that [init] has set up without [data] is empty and
    has nothing overflowing; every lookup in it succeeds and leaves the key
    registered with a field that bears its name and has no trigger. *)
Theorem init_then_getitem (kw_style : option string) (c0 : ALAddendumFieldDict.t)
    (k : string) :
  let c := (init kw_style None c0).2 in
  (init kw_style None c0).1 = Ok () ∧
  overflow store c = Ok [] ∧
  (getitem k c).1 = Ok (RField k) ∧
  elements (getitem k c).2 = [(k, ALAddendumField.new (Some k) None)].
Proof.
  rewrite init_without_data. simpl. rewrite decide_True by reflexivity.
  by repeat split.
Qed.

End lookup_properties.

(** ** Documents: the shape of [as_list], missing pieces, repeated lookups *)

Section document_edges.
Context (store : gmap string pyval).
Context (pdf_concatenate : list artifact → string → result artifact).
Import ALAddendumField ALAddendumFieldDict.

(** X12. Whenever [as_list] returns, the list starts with the attachment at
    the key and is either that attachment alone or, for a document that has
    an addendum, the attachment and the addendum; so [as_pdf], when it
    returns, has handed the concatenation a list that is not empty,
    together with the document's filename. *)
Theorem as_list_shape (d : ALDocument.t) (key : string) :
  (∀ l, ALDocument.as_list store d key = Ok l →
     ∃ main, ALDocument.elements d !! key = Some main ∧
       (l = [main] ∨
        (ALDocument.has_addendum d = true ∧
         ∃ extra, ALDocument.addendum d = Some extra ∧ l = [main; extra]))) ∧
  (∀ pdf, ALDocument.as_pdf store pdf_concatenate d key = Ok pdf →
     ∃ l, l ≠ [] ∧ ALDocument.as_list store d key = Ok l ∧
          pdf_concatenate l (ALDocument.filename d) = Ok pdf).
Proof.
  assert (Hshape : ∀ l, ALDocument.as_list store d key = Ok l →
     ∃ main, ALDocument.elements d !! key = Some main ∧
       (l = [main] ∨
        (ALDocument.has_addendum d = true ∧
         ∃ extra, ALDocument.addendum d = Some extra ∧ l = [main; extra]))).
  { intros l. unfold ALDocument.as_list, ALDocument.getitem.
    destruct (ALDocument.has_addendum d) eqn:Hadd.
    - destruct (ALDocument.has_overflow store d) as [[|]|e]; simpl;
        [| |discriminate];
        (destruct (ALDocument.elements d !! key) as [main|]; simpl; [|discriminate]).
      + destruct (ALDocument.addendum d) as [extra|]; simpl; [|discriminate].
        intros [= <-]. exists main. split; [done|]. right. split; [done|].
        by exists extra.
      + intros [= <-]. exists main. split; [done | by left].
    - simpl. destruct (ALDocument.elements d !! key) as [main|]; simpl; [|discriminate].
      intros [= <-]. exists main. split; [done | by left]. }
  split; [exact Hshape|].
  intros pdf. unfold ALDocument.as_pdf.
  destruct (ALDocument.as_list store d key) as [l|e] eqn:Hl; simpl; [|discriminate].
  intros Hpdf. exists l. split; [|done].
  destruct (Hshape l eq_refl) as (main & _ & [->|(_ & extra & _ & ->)]); discriminate.
Qed.

(** X13. Without an attachment at the key, [as_list] and [as_pdf] return
    nothing; for a document without addendum the error is that of the
    missing item. *)
Theorem as_list_missing_key (d : ALDocument.t) (key : string) :
  ALDocument.elements d !! key = None →
  is_Ok (ALDocument.as_list store d key) = false ∧
  is_Ok (ALDocument.as_pdf store pdf_concatenate d key) = false ∧
  (ALDocument.has_addendum d = false →
     ALDocument.as_list store d key = Err (DAIndexError key)).
Proof.
  intros Hkey.
  assert (Hlist : is_Ok (ALDocument.as_list store d key) = false).
  { unfold ALDocument.as_list, ALDocument.getitem. rewrite Hkey.
    destruct (ALDocument.has_addendum d); simpl; [|reflexivity].
    by destruct (ALDocument.has_overflow store d) as [[|]|e]. }
  split; [done|]. split.
  - unfold ALDocument.as_pdf.
    by destruct (ALDocument.as_list store d key).
  - intros Hadd. unfold ALDocument.as_list, ALDocument.getitem.
    by rewrite Hkey, Hadd.
Qed.

(** X14. A document that says it has an addendum and has none set is fine
    as long as nothing overflows; once a field overflows [as_list] fails on
    the undefined [addendum]. *)
Theorem as_list_missing_addendum (d : ALDocument.t) (key : string) (main : artifact) :
  ALDocument.elements d !! key = Some main →
  ALDocument.has_addendum d = true →
  ALDocument.addendum d = None →
  ALDocument.fields_complete d →
  (ALDocument.has_overflowing_field store d →
     ALDocument.as_list store d key = Err (DAAttributeError "addendum")) ∧
  (¬ ALDocument.has_overflowing_field store d →
     ALDocument.as_list store d key = Ok [main]).
Proof.
  intros Hkey Hadd Hnone Hall.
  destruct (has_overflow_complete store d Hall) as (b & Hb & Hiff).
  unfold ALDocument.as_list, ALDocument.getitem. rewrite Hadd, Hb, Hkey. simpl.
  split.
  - intros Hov. apply Hiff in Hov as ->. by rewrite Hnone.
  - intros Hno. destruct b; [|reflexivity]. exfalso. apply Hno. by apply Hiff.
Qed.

(** X15. As long as none of the variables behind its fields is set, a
    document has no overflow and [as_list] is the attachment alone, also for
    a document with an addendum whose fields have no triggers yet. *)
Theorem as_list_nothing_set (d : ALDocument.t) (key : string) (main : artifact) :
  ALDocument.elements d !! key = Some main →
  (∀ f, f ∈ od_values (elements (ALDocument.overflow_fields d)) →
        ∃ name, field_name f = Some name ∧ store !! name = None) →
  ALDocument.has_overflow store d = Ok false ∧
  ALDocument.as_list store d key = Ok [main].
Proof.
  intros Hkey Hall.
  assert (Hov : ALDocument.has_overflow store d = Ok false).
  { unfold ALDocument.has_overflow, ALDocument.overflow, overflow.
    by rewrite (defined_fields_nothing_set store _ _ Hall). }
  split; [done|].
  unfold ALDocument.as_list, ALDocument.getitem. rewrite Hov, Hkey.
  by destruct (ALDocument.has_addendum d).
Qed.




End document_edges.

(** ** Bundles: how flattening composes, and where it stops *)

Lemma comprehension_first_failure {A B} (f : A → result B)
    (before after : list A) (x : A) (e : pyerr) :
  (∀ y, y ∈ before → is_Ok (f y) = true) →
  f x = Err e →
  comprehension f (before ++ x :: after) = Err e.
Proof.
  intros Hok Hx. induction before as [|y before IH]; simpl.
  - by rewrite Hx.
  - assert (Hy : is_Ok (f y) = true) by (apply Hok; left).
    destruct (f y) as [b|e']; [|discriminate]. simpl.
    rewrite IH; [reflexivity|]. intros z Hz. apply Hok. by right.
Qed.

Lemma comprehension_not_Ok {A B} (f : A → result B)
    (before after : list A) (x : A) :
  is_Ok (f x) = false → is_Ok (comprehension f (before ++ x :: after)) = false.
Proof.
  intros Hx. induction before as [|y before IH]; simpl.
  - by destruct (f x).
  - destruct (f y); simpl; [|reflexivity].
    by destruct (comprehension f (before ++ x :: after)).
Qed.

Section bundle_composition.
Context (store : gmap string pyval).
Context (pdf_concatenate : list artifact → string → result artifact).
Import ALDocumentBundle.

Lemma as_flat_list_from_app (xs ys : list item) (key : string)
    (flat_list : list artifact) :
  as_flat_list_from store (xs ++ ys) key flat_list =
    (l ← as_flat_list_from store xs key flat_list;
     as_flat_list_from store ys key l).
Proof.
  revert flat_list; induction xs as [|[d|b] xs IH]; intros flat_list; simpl;
    [reflexivity | | reflexivity].
  destruct (ALDocument.enabled d); [|apply IH].
  destruct (ALDocument.as_list store d key) as [l|e]; simpl; [apply IH | reflexivity].
Qed.

Lemma as_flat_list_from_acc (xs : list item) (key : string)
    (flat_list : list artifact) :
  as_flat_list_from store xs key flat_list =
    (l ← as_flat_list_from store xs key []; Ok (flat_list ++ l)%list).
Proof.
  revert flat_list; induction xs as [|[d|b] xs IH]; intros flat_list; simpl.
  - by rewrite app_nil_r.
  - destruct (ALDocument.enabled d); [|apply IH].
    destruct (ALDocument.as_list store d key) as [l|e]; simpl; [|reflexivity].
    rewrite (IH (flat_list ++ l)%list), (IH l).
    destruct (as_flat_list_from store xs key []) as [r|e]; simpl; [|reflexivity].
    by rewrite app_assoc.
  - reflexivity.
Qed.

(** X17. Flattening a bundle whose children are those of one bundle
    followed by those of another gives the first flattened list followed by
    the second, and the first exception in that order when there is one. *)
Theorem as_flat_list_app (filename1 filename2 filename : string)
    (enabled1 enabled2 enabled : option bool) (xs ys : list item) (key : string) :
  as_flat_list store (new filename enabled (xs ++ ys)) key =
    (l1 ← as_flat_list store (new filename1 enabled1 xs) key;
     l2 ← as_flat_list store (new filename2 enabled2 ys) key;
     Ok (l1 ++ l2)%list).
Proof.
  unfold as_flat_list. cbn [elements].
  rewrite as_flat_list_from_app.
  destruct (as_flat_list_from store xs key []) as [l1|e]; simpl; [|reflexivity].
  apply as_flat_list_from_acc.
Qed.

(** X18. A disabled document among the children changes nothing: the
    bundle flattens as it does without it, to the same list or the same
    exception; the document is not even asked for its attachments. *)
Theorem as_flat_list_skips_disabled (filename : string) (enabled : option bool)
    (before after : list item) (d : ALDocument.t) (key : string) :
  ALDocument.enabled d = false →
  as_flat_list store (new filename enabled (before ++ Document d :: after)) key =
    as_flat_list store (new filename enabled (before ++ after)) key.
Proof.
  intros Hd. unfold as_flat_list. cbn [elements].
  rewrite !as_flat_list_from_app.
  destruct (as_flat_list_from store before key []) as [l|e]; simpl; [|reflexivity].
  by rewrite Hd.
Qed.

(** X19. A bundle in which every child is a disabled document flattens to
    the empty list, and [as_pdf] hands that empty list to the
    concatenation. *)
Theorem as_flat_list_all_disabled (filename : string) (enabled : option bool)
    (ds : list ALDocument.t) (key : string) :
  Forall (λ d, ALDocument.enabled d = false) ds →
  as_flat_list store (new filename enabled (Document <$> ds)) key = Ok [] ∧
  as_pdf store pdf_concatenate (new filename enabled (Document <$> ds)) key =
    pdf_concatenate [] filename.
Proof.
  intros Hall.
  assert (Hflat : as_flat_list store (new filename enabled (Document <$> ds)) key = Ok []).
  { unfold as_flat_list. cbn [elements].
    induction Hall as [|d ds Hd _ IH]; simpl; [reflexivity | by rewrite Hd]. }
  split; [done|]. unfold as_pdf. by rewrite Hflat.
Qed.

(** X20. For a bundle of documents, [as_flat_list] is the concatenation of
    the [as_list]s of the enabled ones, in the order of the children. *)
Theorem as_flat_list_of_documents (filename : string) (enabled : option bool)
    (ds : list ALDocument.t) (key : string) :
  as_flat_list store (new filename enabled (Document <$> ds)) key =
    (ls ← comprehension (λ d, ALDocument.as_list store d key)
            (List.filter ALDocument.enabled ds);
     Ok (concat ls)).
Proof.
  unfold as_flat_list. cbn [elements].
  induction ds as [|d ds IH]; [reflexivity|].
  rewrite fmap_cons. cbn [as_flat_list_from List.filter].
  destruct (ALDocument.enabled d); [|exact IH].
  cbn [comprehension].
  destruct (ALDocument.as_list store d key) as [l|e]; simpl; [|reflexivity].
  rewrite as_flat_list_from_acc, IH.
  by destruct (comprehension _ (List.filter ALDocument.enabled ds)).
Qed.

(** X21. [as_pdf_list] returns no partial list: when [as_pdf] of a child
    fails after the children before it went through, [as_pdf_list] fails
    with that exception. *)
Theorem as_pdf_list_first_failure (filename : string) (enabled : option bool)
    (before after : list item) (child : item) (key : string) (e : pyerr) :
  (∀ c, c ∈ before → is_Ok (item_as_pdf store pdf_concatenate c key) = true) →
  item_as_pdf store pdf_concatenate child key = Err e →
  as_pdf_list store pdf_concatenate
    (new filename enabled (before ++ child :: after)) key = Err e.
Proof.
  intros Hok He. unfold as_pdf_list. cbn [elements].
  by apply comprehension_first_failure.
Qed.

(** X22. A bundle with a bundle among its children has no single PDF and
    no preview, and a bundle that contains such a bundle has no list of
    PDFs. *)
Theorem as_pdf_sub_bundle (filename filename' : string) (enabled enabled' : option bool)
    (before after before' after' : list item) (b : t) (key : string) :
  let inner := new filename enabled (before ++ Bundle b :: after) in
  is_Ok (as_pdf store pdf_concatenate inner key) = false ∧
  is_Ok (preview store pdf_concatenate inner) = false ∧
  is_Ok (as_pdf_list store pdf_concatenate
           (new filename' enabled' (before' ++ Bundle inner :: after')) key) = false.
Proof.
  assert (Hpdf : ∀ k, is_Ok (as_pdf store pdf_concatenate
                    (new filename enabled (before ++ Bundle b :: after)) k) = false).
  { intros k. unfold as_pdf, as_flat_list. cbn [elements].
    pose proof (as_flat_list_from_bundle store before after b k []) as H.
    by destruct (as_flat_list_from store (before ++ Bundle b :: after) k []). }
  simpl. split; [apply Hpdf|]. split; [apply Hpdf|].
  unfold as_pdf_list. cbn [elements].
  apply comprehension_not_Ok. apply Hpdf.
Qed.

End bundle_composition.

(** ** The further properties at the small interview *)

Lemma safe_value_fits_witness :
  ∃ safe over,
    ALAddendumField.safe_value Demo.store Demo.children_field "" = Ok safe ∧
    ALAddendumField.overflow_value Demo.store Demo.children_field = Ok over ∧
    len safe = Z.min 2 3 ∧ len over = Z.max 0 (3 - 2).
Proof.
  apply (safe_value_fits Demo.store Demo.children_field 2
           (VList [VStr "Ada"; VStr "Ben"; VStr "Cy"]));
    [reflexivity | lia | reflexivity].
Defined.

Lemma safe_value_marker_length_witness :
  ∃ safe, ALAddendumField.safe_value Demo.store Demo.name_field "..." = Ok (VStr safe) ∧
          len (VStr safe) = 5 + 3.
Proof.
  apply (safe_value_marker_length Demo.store Demo.name_field 5 "Alexandria" "...");
    [reflexivity | lia | reflexivity | reflexivity].
Defined.

Lemma field_missing_attribute_witness :
  ALAddendumField.overflow_value Demo.store Demo.bare_field =
    Err (DAAttributeError "overflow_trigger") ∧
  ALAddendumField.value_if_defined Demo.store (ALAddendumField.new None (Some 5)) =
    Err (DAAttributeError "field_name").
Proof.
  split.
  - destruct (field_missing_attribute Demo.store Demo.bare_field) as [H _].
    destruct (H "address" eq_refl eq_refl) as (_ & Hover & _). exact Hover.
  - destruct (field_missing_attribute Demo.store (ALAddendumField.new None (Some 5)))
      as [_ H].
    destruct (H eq_refl) as (Hvalue & _). exact Hvalue.
Defined.

Lemma safe_value_unset_variable_witness :
  ALAddendumField.safe_value Demo.store Demo.negative_field "..." = Ok (VStr "...") ∧
  ALAddendumField.safe_value Demo.store Demo.unset_field "..." = Ok (VStr "").
Proof.
  split.
  - apply (safe_value_unset_variable Demo.store Demo.negative_field "address" (-1) "...");
      reflexivity.
  - apply (safe_value_unset_variable Demo.store Demo.unset_field "address" 5 "...");
      reflexivity.
Defined.

Lemma defined_fields_selects_witness :
  [Demo.name_field] `sublist_of`
    [Demo.name_field; Demo.nickname_field; Demo.unset_field] ∧
  Forall (ALAddendumField.overflowing Demo.store) [Demo.name_field].
Proof.
  destruct (defined_fields_selects Demo.store
              (Demo.fields [("name", Demo.name_field);
                            ("nickname", Demo.nickname_field);
                            ("address", Demo.unset_field)])
              "overflow_only" [Demo.name_field] eq_refl) as (Hsub & _ & Hover).
  split; [exact Hsub|]. by destruct (Hover eq_refl).
Defined.

Lemma overflow_within_defined_witness :
  [Demo.name_field] `sublist_of` [Demo.name_field; Demo.nickname_field].
Proof.
  apply (overflow_within_defined Demo.store
           (Demo.fields [("name", Demo.name_field);
                         ("nickname", Demo.nickname_field);
                         ("address", Demo.unset_field)])
           "all"); [discriminate | reflexivity | reflexivity].
Defined.

Lemma defined_fields_nothing_set_witness :
  ALAddendumFieldDict.defined_fields Demo.store
    (Demo.fields [("address", Demo.bare_field)]) "overflow_only" = Ok [].
Proof.
  apply defined_fields_nothing_set. intros f Hf.
  apply list_elem_of_singleton in Hf as ->. by exists "address".
Defined.

Lemma getitem_keeps_stamped_witness :
  ALAddendumFieldDict.stamped
    (ALAddendumFieldDict.getitem "zip" (Demo.fields [("name", Demo.name_field)])).2.
Proof.
  apply getitem_keeps_stamped. intros k f Hin.
  apply list_elem_of_singleton in Hin. by injection Hin as -> ->.
Defined.

Lemma getitem_keeps_others_witness :
  od_get "name"
    (ALAddendumFieldDict.elements
       (ALAddendumFieldDict.getitem "zip" (Demo.fields [("name", Demo.name_field)])).2) =
    Some Demo.name_field.
Proof.
  destruct (getitem_keeps_others "zip" (Demo.fields [("name", Demo.name_field)]))
    as [Hother _].
  rewrite (Hother "name"); [reflexivity | discriminate].
Defined.

Lemma as_list_shape_witness :
  ∃ main, ALDocument.elements Demo.doc_A !! "final" = Some main ∧
    ([Artifact "A.final"; Artifact "A.addendum"] = [main] ∨
     (ALDocument.has_addendum Demo.doc_A = true ∧
      ∃ extra, ALDocument.addendum Demo.doc_A = Some extra ∧
               [Artifact "A.final"; Artifact "A.addendum"] = [main; extra])).
Proof.
  destruct (as_list_shape Demo.store Demo.pdf_concatenate Demo.doc_A "final")
    as [Hshape _].
  apply Hshape. reflexivity.
Defined.

Lemma as_list_missing_key_witness :
  ALDocument.as_list Demo.store Demo.doc_F "final" = Err (DAIndexError "final").
Proof.
  destruct (as_list_missing_key Demo.store Demo.pdf_concatenate Demo.doc_F "final"
              eq_refl) as (_ & _ & H).
  apply H. reflexivity.
Defined.

Lemma as_list_missing_addendum_witness :
  ALDocument.as_list Demo.store Demo.doc_D "final" = Err (DAAttributeError "addendum").
Proof.
  destruct (as_list_missing_addendum Demo.store Demo.doc_D "final" (Artifact "D.final")
              eq_refl eq_refl eq_refl) as [H _].
  { repeat constructor; eexists; reflexivity. }
  apply H. exists Demo.name_field. split; [apply list_elem_of_here|].
  exists "name", (VStr "ndria").
  split; [reflexivity|]. split; [by eexists|]. split; reflexivity.
Defined.

Lemma as_list_nothing_set_witness :
  ALDocument.has_overflow Demo.store Demo.doc_G = Ok false ∧
  ALDocument.as_list Demo.store Demo.doc_G "final" = Ok [Artifact "G.final"].
Proof.
  apply (as_list_nothing_set Demo.store Demo.doc_G "final" (Artifact "G.final"));
    [reflexivity|].
  intros f Hf. apply list_elem_of_singleton in Hf as ->. by exists "address".
Defined.


Lemma as_flat_list_skips_disabled_witness :
  ALDocumentBundle.as_flat_list Demo.store Demo.flat "final" =
    ALDocumentBundle.as_flat_list Demo.store
      (ALDocumentBundle.new "flat.pdf" None
         [ALDocumentBundle.Document Demo.doc_A; ALDocumentBundle.Document Demo.doc_B])
      "final".
Proof.
  apply (as_flat_list_skips_disabled Demo.store "flat.pdf" None
           [ALDocumentBundle.Document Demo.doc_A]
           [ALDocumentBundle.Document Demo.doc_B] Demo.doc_C "final").
  reflexivity.
Defined.

Lemma as_flat_list_all_disabled_witness :
  ALDocumentBundle.as_flat_list Demo.store Demo.off "final" = Ok [] ∧
  ALDocumentBundle.as_pdf Demo.store Demo.pdf_concatenate Demo.off "final" =
    Demo.pdf_concatenate [] "off.pdf".
Proof.
  apply (as_flat_list_all_disabled Demo.store Demo.pdf_concatenate "off.pdf" None
           [Demo.doc_C; Demo.doc_E] "final").
  repeat constructor.
Defined.

Lemma as_pdf_list_first_failure_witness :
  ALDocumentBundle.as_pdf_list Demo.store Demo.pdf_concatenate Demo.broken "final" =
    Err (DAIndexError "final").
Proof.
  apply (as_pdf_list_first_failure Demo.store Demo.pdf_concatenate "broken.pdf" None
           [ALDocumentBundle.Document Demo.doc_A]
           [ALDocumentBundle.Document Demo.doc_B]
           (ALDocumentBundle.Document Demo.doc_F) "final").
  - intros c Hc. apply list_elem_of_singleton in Hc as ->. reflexivity.
  - reflexivity.
Defined.

(** ** Lists of PDFs and nesting *)

Section pdf_lists.
Context (store : gmap string pyval).
Context (pdf_concatenate : list artifact → string → result artifact).
Import ALDocumentBundle.

(** C6. [as_pdf_list] returns no list, whatever the concatenation does, for
    a bundle one of whose children is a bundle that has a bundle among its
    own children: the PDF of that child is made from its [as_flat_list],
    which calls [as_list] on a bundle.  For a document followed by such a
    bundle the code gives that error instead of a list of two PDFs. *)
Theorem as_pdf_list_deep_nesting :
  (∀ filename filename' enabled enabled' before after before' after' b key,
     is_Ok (as_pdf_list store pdf_concatenate
              (new filename' enabled'
                 (before' ++
                  Bundle (new filename enabled (before ++ Bundle b :: after)) ::
                  after')) key) = false) ∧
  length (elements Demo.deep) = 2%nat ∧
  ALDocument.as_pdf Demo.store Demo.pdf_concatenate Demo.doc_A "final" =
    Ok (Artifact "A.pdf") ∧
  as_pdf_list Demo.store Demo.pdf_concatenate Demo.deep "final" =
    Err (DAAttributeError "as_list").
Proof.
  split; [|by repeat split].
  intros. unfold as_pdf_list. cbn [elements].
  apply comprehension_not_Ok. cbn [item_as_pdf].
  unfold as_pdf, as_flat_list. cbn [elements].
  pose proof (as_flat_list_from_bundle store before after b key []) as H.
  by destruct (as_flat_list_from store (before ++ Bundle b :: after) key []).
Qed.

(** X23. When [as_pdf] of every child returns, [as_pdf_list] returns a list
    as long as the list of children whose entries are, in the order of the
    children, the concatenation of a document's [as_list] under the
    document's filename and the concatenation of a bundle's [as_flat_list]
    under the bundle's filename; a document's entry does not depend on its
    [enabled] flag. *)
Theorem as_pdf_list_entries (b : t) (key : string) :
  (∀ child, child ∈ elements b →
     match child with
     | Document d => is_Ok (ALDocument.as_pdf store pdf_concatenate d key) = true
     | Bundle b' => is_Ok (as_pdf store pdf_concatenate b' key) = true
     end) →
  ∃ pdfs,
    as_pdf_list store pdf_concatenate b key = Ok pdfs ∧
    length pdfs = length (elements b) ∧
    Forall2
      (λ child pdf,
         match child with
         | Document d =>
             ∃ l, ALDocument.as_list store d key = Ok l ∧
                  pdf_concatenate l (ALDocument.filename d) = Ok pdf ∧
                  ∀ e, ALDocument.as_list store (ALDocument.set_enabled e d) key = Ok l
         | Bundle b' =>
             ∃ l, as_flat_list store b' key = Ok l ∧
                  pdf_concatenate l (filename b') = Ok pdf
         end)
      (elements b) pdfs.
Proof.
  intros Hok. unfold as_pdf_list.
  destruct (comprehension_total (λ document, item_as_pdf store pdf_concatenate document key)
              (elements b)) as [pdfs Hpdfs].
  { intros child Hin. specialize (Hok child Hin). by destruct child. }
  exists pdfs. split; [done|].
  pose proof (comprehension_length _ _ _ Hpdfs) as Hall.
  split; [symmetry; by eapply Forall2_length|].
  eapply Forall2_impl; [exact Hall|].
  intros [d|b'] pdf; cbn [item_as_pdf].
  - unfold ALDocument.as_pdf.
    destruct (ALDocument.as_list store d key) as [l|e] eqn:Hl; simpl; [|discriminate].
    intros Hpdf. exists l. split; [done|]. split; [done|]. intros e. exact Hl.
  - unfold as_pdf.
    destruct (as_flat_list store b' key) as [l|e]; simpl; [|discriminate].
    intros Hpdf. by exists l.
Qed.

End pdf_lists.

Lemma as_pdf_list_entries_witness :
  ALDocument.enabled Demo.doc_C = false ∧
  ALDocumentBundle.as_pdf_list Demo.store Demo.pdf_concatenate Demo.two_levels "final" =
    Ok [Artifact "C.pdf"; Artifact "flat.pdf"].
Proof.
  split; [reflexivity|].
  destruct (as_pdf_list_entries Demo.store Demo.pdf_concatenate Demo.two_levels "final")
    as (pdfs & Hpdfs & _ & Hall).
  - intros child Hin.
    apply elem_of_cons in Hin as [->|Hin]; [reflexivity|].
    apply list_elem_of_singleton in Hin as ->. reflexivity.
  - rewrite Hpdfs. f_equal.
    apply Forall2_cons_inv_l in Hall as (p1 & rest & (l1 & Hl1 & Hp1 & _) & Hall & ->).
    apply Forall2_cons_inv_l in Hall as (p2 & rest' & (l2 & Hl2 & Hp2) & Hall & ->).
    apply Forall2_nil_inv_l in Hall as ->.
    vm_compute in Hl1. injection Hl1 as <-.
    vm_compute in Hp1. injection Hp1 as <-.
    vm_compute in Hl2. injection Hl2 as <-.
    vm_compute in Hp2. injection Hp2 as <-.
    reflexivity.
Defined.
